(** * Nano-Panorama: the image template compositor and the generation
    session controller

  A shallow embedding of [src/utils/fileUtils.ts] (the compositor,
  [createImageTemplate]), of the remote-call wrappers
  ([generateSourceImage], [generatePanorama], [enhanceImage]) and of the
  event handlers of the [App] component with history and enhancement.

  JavaScript numbers are IEEE-754 binary64 values: they are modelled by
  [spec_float] with precision 53 and maximal exponent 1024, and every
  arithmetic operator of the source is the correctly rounded operation
  of [SpecFloat].  JavaScript strings are modelled by [string]; [null]
  and [undefined] by [None]. *)

From Stdlib Require Import ZArith Lia Bool List String Ascii.
From Stdlib Require Import Floats.SpecFloat.
Import ListNotations.

Local Open Scope Z_scope.

(* ------------------------------------------------------------------ *)
(** ** JavaScript values used by the program *)

Module Js.

(** *** Numbers *)

Definition prec : Z := 53.
Definition emax : Z := 1024.

Definition number : Type := spec_float.

(** An integer literal, or an integer-valued DOM attribute, as a number. *)
Definition of_Z (z : Z) : number := binary_normalize prec emax z 0 false.

Definition div (x y : number) : number := SFdiv prec emax x y.
Definition mul (x y : number) : number := SFmul prec emax x y.
Definition sub (x y : number) : number := SFsub prec emax x y.

(** [x > y], [x >= y] and [x <= y]; all three are false on NaN. *)
Definition gt (x y : number) : bool := SFltb y x.
Definition ge (x y : number) : bool := SFleb y x.
Definition le (x y : number) : bool := SFleb x y.

(** *** Strings *)

Local Open Scope string_scope.

(** [!s] is false exactly on a present, non-empty string. *)
Definition truthy (o : option string) : bool :=
  match o with
  | Some s => negb (s =? "")
  | None => false
  end.

(** Template-literal rendering of a possibly undefined string. *)
Definition show (o : option string) : string :=
  match o with
  | Some s => s
  | None => "undefined"
  end.

(** [s.split(sep)] for a one-character separator. *)
Fixpoint split (sep : ascii) (s : string) : list string :=
  match s with
  | EmptyString => [EmptyString]
  | String c r =>
      if Ascii.eqb c sep then EmptyString :: split sep r
      else match split sep r with
           | h :: t => String c h :: t
           | [] => [String c EmptyString]
           end
  end.

(** [s.includes(sub)]. *)
Fixpoint includes (sub s : string) : bool :=
  if String.prefix sub s then true
  else match s with
       | EmptyString => false
       | String _ r => includes sub r
       end.

(** Line terminators, which [.] of a regular expression does not match:
    LF, CR, and U+2028 / U+2029 (three bytes each in UTF-8). *)
Definition starts_with_line_terminator (s : string) : bool :=
  match s with
  | String c r =>
      if (Ascii.eqb c "010" || Ascii.eqb c "013")%bool then true
      else
        match r with
        | String c2 (String c3 _) =>
            (Ascii.eqb c "226" && Ascii.eqb c2 "128"
             && (Ascii.eqb c3 "168" || Ascii.eqb c3 "169"))%bool
        | _ => false
        end
  | EmptyString => false
  end.

(** The lazy group of [/:(.*?);/] once the colon has been consumed. *)
Fixpoint lazy_until_semicolon (s : string) : option string :=
  match s with
  | EmptyString => None
  | String c r =>
      if Ascii.eqb c ";" then Some EmptyString
      else if starts_with_line_terminator s then None
      else option_map (String c) (lazy_until_semicolon r)
  end.

(** [s.match(/:(.*?);/)?.[1]]: the first group of the leftmost match. *)
Fixpoint match_colon_semicolon (s : string) : option string :=
  match s with
  | EmptyString => None
  | String c r =>
      if Ascii.eqb c ":" then
        match lazy_until_semicolon r with
        | Some g => Some g
        | None => match_colon_semicolon r
        end
      else match_colon_semicolon r
  end.

(** *** Exceptions and settled promises *)

(** A thrown value: an [Error] object with its message, or anything else. *)
Inductive Thrown : Type :=
| JsError (message : string)
| NotAnError.

(** A settled promise (or the outcome of a [try] block). *)
Inductive Settled (A : Type) : Type :=
| Rejected (e : Thrown)
| Fulfilled (a : A).
Arguments Rejected {A} e.
Arguments Fulfilled {A} a.

End Js.

(* ------------------------------------------------------------------ *)
(** ** The image template compositor ([src/utils/fileUtils.ts]) *)

Module Compositor.
Import Js.
Local Open Scope string_scope.

Record FileConversionResult : Type := {
  base64 : string;
  mimeType : string
}.

Record File : Type := {
  file_name : string;
  file_type : string;
  file_bytes : string
}.

(** The arguments of [ctx.drawImage(img, offsetX, offsetY, drawWidth,
    drawHeight)]. *)
Record DrawCall : Type := {
  offsetX : number;
  offsetY : number;
  drawWidth : number;
  drawHeight : number
}.

Record Canvas : Type := {
  width : number;
  height : number;
  drawn : DrawCall
}.

(** What the browser contributes: decoding the file ([img.onload] with
    the intrinsic size, or [img.onerror]), the 2d context, and the PNG
    export of a canvas. *)
Record Browser : Type := {
  decode : File -> option (Z * Z);
  getContext2d : bool;
  toDataURL : Canvas -> string
}.

Definition TARGET_WIDTH : number := of_Z 1280.
Definition TARGET_HEIGHT : number := of_Z 720.
Definition TARGET_ASPECT_RATIO : number := div TARGET_WIDTH TARGET_HEIGHT.

(** Lines 31-51: the scaled size and the centring offsets. *)
Definition drawGeometry (originalWidth originalHeight : number) : DrawCall :=
  let originalAspectRatio := div originalWidth originalHeight in
  let '(drawWidth, drawHeight) :=
    if gt originalAspectRatio TARGET_ASPECT_RATIO then
      (TARGET_WIDTH, div TARGET_WIDTH originalAspectRatio)
    else
      (mul TARGET_HEIGHT originalAspectRatio, TARGET_HEIGHT) in
  let offsetX := div (sub TARGET_WIDTH drawWidth) (of_Z 2) in
  let offsetY := div (sub TARGET_HEIGHT drawHeight) (of_Z 2) in
  {| offsetX := offsetX; offsetY := offsetY;
     drawWidth := drawWidth; drawHeight := drawHeight |}.

(** Lines 24-54: the canvas after [ctx.drawImage], for an image of
    intrinsic size [w] x [h]. *)
Definition paint (w h : Z) : Canvas :=
  {| width := TARGET_WIDTH;
     height := TARGET_HEIGHT;
     drawn := drawGeometry (of_Z w) (of_Z h) |}.

Definition createImageTemplate (b : Browser) (file : File)
  : Settled FileConversionResult :=
  match decode b file with
  | None => Rejected NotAnError
  | Some (w, h) =>
      if negb (getContext2d b) then
        Rejected (JsError "Не удалось получить контекст холста")
      else
        let dataUrl := toDataURL b (paint w h) in
        match split "," dataUrl with
        | [_; payload] =>
            Fulfilled {| base64 := payload; mimeType := "image/png" |}
        | _ =>
            Rejected (JsError "Неверный формат Data URL при создании шаблона")
        end
  end.

End Compositor.

(* ------------------------------------------------------------------ *)
(** ** The remote-call wrappers *)

Module Service.
Import Js.
Local Open Scope string_scope.

Record PanoramaResult : Type := {
  imageUrl : option string;
  text : option string
}.

(** *** The shapes exchanged with the generative-image service *)

Record Blob : Type := {
  data : option string;
  mimeType : option string
}.

Record Part : Type := {
  inlineData : option Blob;
  part_text : option string
}.

(** [content_parts = None] stands for a candidate whose [content] or
    [content.parts] is undefined: iterating over it throws a TypeError. *)
Record Candidate : Type := {
  content_parts : option (list Part)
}.

Record GenerateContentResponse : Type := {
  candidates : option (list Candidate)
}.

(** [image = None] stands for an undefined [image] member. *)
Record GeneratedImage : Type := {
  image : option (option string)
}.

Record GenerateImagesResponse : Type := {
  generatedImages : option (list GeneratedImage)
}.

(** One request sent over the network. *)
Inductive Request : Type :=
| GenerateImages (model prompt apiKey : string)
| GenerateContent (model data mimeType prompt apiKey : string).

(** The service as seen by the client: each call either throws or
    returns a response. *)
Record Remote : Type := {
  generateImages : string -> string -> string
                   -> Settled GenerateImagesResponse;
  generateContent : string -> string -> string -> string -> string
                    -> Settled GenerateContentResponse
}.

(** The outcome of a wrapper: the requests it sent, and how its promise
    settled. *)
Definition Call (A : Type) : Type := (list Request * Settled A)%type.

Definition typeError : Thrown :=
  JsError "Cannot read properties of undefined".

(** The test of every [catch] block of the wrappers. *)
Definition isConfigFailure (e : Thrown) : bool :=
  match e with
  | JsError m => (includes "API_KEY" m || includes "permission denied" m)%bool
  | NotAnError => false
  end.

Definition configMessage : string :=
  "Произошла ошибка конфигурации. Проверьте ваш API ключ.".

Definition rethrow {A : Type} (generic : string) (e : Thrown) : Settled A :=
  if isConfigFailure e then Rejected (JsError configMessage)
  else Rejected (JsError generic).

Definition missingKey : string := "API ключ не предоставлен.".

(** *** [generateSourceImage] *)

Definition imagenModel : string := "imagen-4.0-generate-001".

Definition sourceGeneric : string :=
  "Не удалось сгенерировать исходное изображение. Пожалуйста, попробуйте еще раз позже.".

Definition generateSourceImage (r : Remote) (prompt apiKey : string)
  : Call string :=
  if negb (truthy (Some apiKey)) then
    ([], Rejected (JsError missingKey))
  else
    let sent := [GenerateImages imagenModel prompt apiKey] in
    let tried : Settled string :=
      match generateImages r imagenModel prompt apiKey with
      | Rejected e => Rejected e
      | Fulfilled response =>
          let noData := Rejected (JsError
            "Не удалось сгенерировать изображение. Модель не вернула данные изображения.") in
          match generatedImages response with
          | None | Some [] => noData
          | Some (first :: _) =>
              match image first with
              | None => Rejected typeError
              | Some bytes =>
                  if negb (truthy bytes) then noData
                  else Fulfilled (show bytes)
              end
          end
      end in
    match tried with
    | Rejected e => (sent, rethrow sourceGeneric e)
    | Fulfilled bytes => (sent, Fulfilled bytes)
    end.

(** *** The loop shared by [generatePanorama] and [enhanceImage] *)

(** One iteration of [for (const part of ...parts)]. *)
Definition scanPart (acc : option string * option string) (part : Part)
  : option string * option string :=
  let '(imageUrl, text) := acc in
  match inlineData part with
  | Some blob =>
      if truthy (data blob) then
        (Some ("data:" ++ show (mimeType blob) ++ ";base64," ++ show (data blob)),
         text)
      else if truthy (part_text part) then (imageUrl, part_text part)
      else acc
  | None =>
      if truthy (part_text part) then (imageUrl, part_text part) else acc
  end.

(** Lines 134-150: from the response to the result, inside the [try]. *)
Definition extract (missing : string) (response : GenerateContentResponse)
  : Settled PanoramaResult :=
  let scanned : Settled (option string * option string) :=
    match candidates response with
    | Some (first :: _) =>
        match content_parts first with
        | None => Rejected typeError
        | Some parts => Fulfilled (fold_left scanPart parts (None, None))
        end
    | _ => Fulfilled (None, None)
    end in
  match scanned with
  | Rejected e => Rejected e
  | Fulfilled (imageUrl, text) =>
      if negb (truthy imageUrl) then Rejected (JsError missing)
      else Fulfilled {| imageUrl := imageUrl; text := text |}
  end.

Definition geminiModel : string := "gemini-2.5-flash-image-preview".

(** *** [generatePanorama] *)

Definition systemPrompt : string :=
  "Ваша задача — заполнить прозрачные области на этом холсте, чтобы создать полную, бесшовную и целостную сцену. Центральное изображение — это отправная точка. Естественно расширьте сцену, сохраняя стиль, освещение, перспективу и детали оригинального изображения. Финальный результат должен быть полноценным изображением с соотношением сторон 16:9. Дополнительно учтите пожелание пользователя: ".

Definition panoramaGeneric : string :=
  "Не удалось сгенерировать панораму. Пожалуйста, попробуйте еще раз позже.".

Definition generatePanorama (r : Remote)
    (base64ImageData mimeType userPrompt apiKey : string)
  : Call PanoramaResult :=
  if negb (truthy (Some apiKey)) then
    ([], Rejected (JsError missingKey))
  else
    let fullPrompt := systemPrompt ++ userPrompt in
    let sent :=
      [GenerateContent geminiModel base64ImageData mimeType fullPrompt apiKey] in
    let tried :=
      match generateContent r geminiModel base64ImageData mimeType
              fullPrompt apiKey with
      | Rejected e => Rejected e
      | Fulfilled response =>
          extract "Не удалось сгенерировать изображение. Модель не вернула изображение в ответе."
            response
      end in
    match tried with
    | Rejected e => (sent, rethrow panoramaGeneric e)
    | Fulfilled result => (sent, Fulfilled result)
    end.

(** *** [enhanceImage] *)

Definition enhancePrompt : string :=
  "Значительно улучши качество и детализацию этого изображения. Сделай его более четким, с высоким разрешением и фотореалистичным, сохраняя при этом исходную композицию и тематику. Не добавляй никаких новых объектов или элементов, просто улучши существующее изображение.".

Definition enhanceGeneric : string :=
  "Не удалось улучшить изображение. Пожалуйста, попробуйте еще раз позже.".

Definition enhanceImage (r : Remote)
    (base64ImageData mimeType apiKey : string)
  : Call PanoramaResult :=
  if negb (truthy (Some apiKey)) then
    ([], Rejected (JsError missingKey))
  else
    let sent :=
      [GenerateContent geminiModel base64ImageData mimeType enhancePrompt apiKey] in
    let tried :=
      match generateContent r geminiModel base64ImageData mimeType
              enhancePrompt apiKey with
      | Rejected e => Rejected e
      | Fulfilled response =>
          extract "Не удалось улучшить изображение. Модель не вернула изображение в ответе."
            response
      end in
    match tried with
    | Rejected e => (sent, rethrow enhanceGeneric e)
    | Fulfilled result => (sent, Fulfilled result)
    end.

End Service.

(* ------------------------------------------------------------------ *)
(** ** The generation session controller (the [App] component) *)

Module Controller.
Import Js.
Import Service.
Local Open Scope string_scope.

(** The field [prompt] of the source is [item_prompt] here, [prompt] being
    a state cell of the component as well. *)
Record HistoryItem : Type := {
  id : Z;
  item_prompt : string;
  templateImageBase64 : string;
  templateImageMimeType : string;
  generatedImageUrl : string
}.

Inductive SourceMode : Type := upload | generate.

(** What [localStorage] holds under [HISTORY_KEY]: nothing (or the empty
    text, which the mount effect treats alike), a text that cannot be
    read back ([getItem] or [JSON.parse] throws), or the JSON encoding of
    a list of entries.  A text that parses to anything else is outside
    the model. *)
Inductive StoredText : Type :=
| Absent
| Malformed
| Encodes (entries : list HistoryItem).

(** The fifteen [useState] cells of [App], followed by what the handlers
    write outside of React: the entry of [localStorage] under
    [HISTORY_KEY], the requests sent to the service so far, and the
    status updates scheduled with [setTimeout] (delay in milliseconds,
    message), none of which is ever cancelled.

    A handler is a function from the state it was rendered with to the
    state after its last setter: it reads the values captured by its
    closure and runs to completion without another action in between, as
    the disabled buttons of the component ensure. *)
Record State : Type := {
  apiKey : string;
  base64Image : option string;
  imagePreview : option string;
  mimeType : option string;
  prompt : string;
  generatedImage : option string;
  generatedText : option string;
  isLoading : bool;
  isEnhancing : bool;
  error : option string;
  statusMessage : string;
  history : list HistoryItem;
  sourceMode : SourceMode;
  initialPrompt : string;
  isGeneratingInitial : bool;
  localStorage : StoredText;
  network : list Request;
  timers : list (Z * string)
}.

(** The state setters of [useState], and the three updates of the
    environment. *)

Definition setApiKey (v : string) (s : State) : State :=
  {| apiKey := v; base64Image := base64Image s;
     imagePreview := imagePreview s; mimeType := mimeType s;
     prompt := prompt s; generatedImage := generatedImage s;
     generatedText := generatedText s; isLoading := isLoading s;
     isEnhancing := isEnhancing s; error := error s;
     statusMessage := statusMessage s; history := history s;
     sourceMode := sourceMode s; initialPrompt := initialPrompt s;
     isGeneratingInitial := isGeneratingInitial s;
     localStorage := localStorage s; network := network s;
     timers := timers s |}.

Definition setBase64Image (v : option string) (s : State) : State :=
  {| apiKey := apiKey s; base64Image := v; imagePreview := imagePreview s;
     mimeType := mimeType s; prompt := prompt s;
     generatedImage := generatedImage s; generatedText := generatedText s;
     isLoading := isLoading s; isEnhancing := isEnhancing s;
     error := error s; statusMessage := statusMessage s;
     history := history s; sourceMode := sourceMode s;
     initialPrompt := initialPrompt s;
     isGeneratingInitial := isGeneratingInitial s;
     localStorage := localStorage s; network := network s;
     timers := timers s |}.

Definition setImagePreview (v : option string) (s : State) : State :=
  {| apiKey := apiKey s; base64Image := base64Image s; imagePreview := v;
     mimeType := mimeType s; prompt := prompt s;
     generatedImage := generatedImage s; generatedText := generatedText s;
     isLoading := isLoading s; isEnhancing := isEnhancing s;
     error := error s; statusMessage := statusMessage s;
     history := history s; sourceMode := sourceMode s;
     initialPrompt := initialPrompt s;
     isGeneratingInitial := isGeneratingInitial s;
     localStorage := localStorage s; network := network s;
     timers := timers s |}.

Definition setMimeType (v : option string) (s : State) : State :=
  {| apiKey := apiKey s; base64Image := base64Image s;
     imagePreview := imagePreview s; mimeType := v; prompt := prompt s;
     generatedImage := generatedImage s; generatedText := generatedText s;
     isLoading := isLoading s; isEnhancing := isEnhancing s;
     error := error s; statusMessage := statusMessage s;
     history := history s; sourceMode := sourceMode s;
     initialPrompt := initialPrompt s;
     isGeneratingInitial := isGeneratingInitial s;
     localStorage := localStorage s; network := network s;
     timers := timers s |}.

Definition setPrompt (v : string) (s : State) : State :=
  {| apiKey := apiKey s; base64Image := base64Image s;
     imagePreview := imagePreview s; mimeType := mimeType s; prompt := v;
     generatedImage := generatedImage s; generatedText := generatedText s;
     isLoading := isLoading s; isEnhancing := isEnhancing s;
     error := error s; statusMessage := statusMessage s;
     history := history s; sourceMode := sourceMode s;
     initialPrompt := initialPrompt s;
     isGeneratingInitial := isGeneratingInitial s;
     localStorage := localStorage s; network := network s;
     timers := timers s |}.

Definition setGeneratedImage (v : option string) (s : State) : State :=
  {| apiKey := apiKey s; base64Image := base64Image s;
     imagePreview := imagePreview s; mimeType := mimeType s;
     prompt := prompt s; generatedImage := v;
     generatedText := generatedText s; isLoading := isLoading s;
     isEnhancing := isEnhancing s; error := error s;
     statusMessage := statusMessage s; history := history s;
     sourceMode := sourceMode s; initialPrompt := initialPrompt s;
     isGeneratingInitial := isGeneratingInitial s;
     localStorage := localStorage s; network := network s;
     timers := timers s |}.

Definition setGeneratedText (v : option string) (s : State) : State :=
  {| apiKey := apiKey s; base64Image := base64Image s;
     imagePreview := imagePreview s; mimeType := mimeType s;
     prompt := prompt s; generatedImage := generatedImage s;
     generatedText := v; isLoading := isLoading s;
     isEnhancing := isEnhancing s; error := error s;
     statusMessage := statusMessage s; history := history s;
     sourceMode := sourceMode s; initialPrompt := initialPrompt s;
     isGeneratingInitial := isGeneratingInitial s;
     localStorage := localStorage s; network := network s;
     timers := timers s |}.

Definition setIsLoading (v : bool) (s : State) : State :=
  {| apiKey := apiKey s; base64Image := base64Image s;
     imagePreview := imagePreview s; mimeType := mimeType s;
     prompt := prompt s; generatedImage := generatedImage s;
     generatedText := generatedText s; isLoading := v;
     isEnhancing := isEnhancing s; error := error s;
     statusMessage := statusMessage s; history := history s;
     sourceMode := sourceMode s; initialPrompt := initialPrompt s;
     isGeneratingInitial := isGeneratingInitial s;
     localStorage := localStorage s; network := network s;
     timers := timers s |}.

Definition setIsEnhancing (v : bool) (s : State) : State :=
  {| apiKey := apiKey s; base64Image := base64Image s;
     imagePreview := imagePreview s; mimeType := mimeType s;
     prompt := prompt s; generatedImage := generatedImage s;
     generatedText := generatedText s; isLoading := isLoading s;
     isEnhancing := v; error := error s; statusMessage := statusMessage s;
     history := history s; sourceMode := sourceMode s;
     initialPrompt := initialPrompt s;
     isGeneratingInitial := isGeneratingInitial s;
     localStorage := localStorage s; network := network s;
     timers := timers s |}.

Definition setError (v : option string) (s : State) : State :=
  {| apiKey := apiKey s; base64Image := base64Image s;
     imagePreview := imagePreview s; mimeType := mimeType s;
     prompt := prompt s; generatedImage := generatedImage s;
     generatedText := generatedText s; isLoading := isLoading s;
     isEnhancing := isEnhancing s; error := v;
     statusMessage := statusMessage s; history := history s;
     sourceMode := sourceMode s; initialPrompt := initialPrompt s;
     isGeneratingInitial := isGeneratingInitial s;
     localStorage := localStorage s; network := network s;
     timers := timers s |}.

Definition setStatusMessage (v : string) (s : State) : State :=
  {| apiKey := apiKey s; base64Image := base64Image s;
     imagePreview := imagePreview s; mimeType := mimeType s;
     prompt := prompt s; generatedImage := generatedImage s;
     generatedText := generatedText s; isLoading := isLoading s;
     isEnhancing := isEnhancing s; error := error s; statusMessage := v;
     history := history s; sourceMode := sourceMode s;
     initialPrompt := initialPrompt s;
     isGeneratingInitial := isGeneratingInitial s;
     localStorage := localStorage s; network := network s;
     timers := timers s |}.

Definition setHistory (v : list HistoryItem) (s : State) : State :=
  {| apiKey := apiKey s; base64Image := base64Image s;
     imagePreview := imagePreview s; mimeType := mimeType s;
     prompt := prompt s; generatedImage := generatedImage s;
     generatedText := generatedText s; isLoading := isLoading s;
     isEnhancing := isEnhancing s; error := error s;
     statusMessage := statusMessage s; history := v;
     sourceMode := sourceMode s; initialPrompt := initialPrompt s;
     isGeneratingInitial := isGeneratingInitial s;
     localStorage := localStorage s; network := network s;
     timers := timers s |}.

Definition setSourceMode (v : SourceMode) (s : State) : State :=
  {| apiKey := apiKey s; base64Image := base64Image s;
     imagePreview := imagePreview s; mimeType := mimeType s;
     prompt := prompt s; generatedImage := generatedImage s;
     generatedText := generatedText s; isLoading := isLoading s;
     isEnhancing := isEnhancing s; error := error s;
     statusMessage := statusMessage s; history := history s;
     sourceMode := v; initialPrompt := initialPrompt s;
     isGeneratingInitial := isGeneratingInitial s;
     localStorage := localStorage s; network := network s;
     timers := timers s |}.

Definition setInitialPrompt (v : string) (s : State) : State :=
  {| apiKey := apiKey s; base64Image := base64Image s;
     imagePreview := imagePreview s; mimeType := mimeType s;
     prompt := prompt s; generatedImage := generatedImage s;
     generatedText := generatedText s; isLoading := isLoading s;
     isEnhancing := isEnhancing s; error := error s;
     statusMessage := statusMessage s; history := history s;
     sourceMode := sourceMode s; initialPrompt := v;
     isGeneratingInitial := isGeneratingInitial s;
     localStorage := localStorage s; network := network s;
     timers := timers s |}.

Definition setIsGeneratingInitial (v : bool) (s : State) : State :=
  {| apiKey := apiKey s; base64Image := base64Image s;
     imagePreview := imagePreview s; mimeType := mimeType s;
     prompt := prompt s; generatedImage := generatedImage s;
     generatedText := generatedText s; isLoading := isLoading s;
     isEnhancing := isEnhancing s; error := error s;
     statusMessage := statusMessage s; history := history s;
     sourceMode := sourceMode s; initialPrompt := initialPrompt s;
     isGeneratingInitial := v; localStorage := localStorage s;
     network := network s; timers := timers s |}.

Definition withStorage (v : StoredText) (s : State) : State :=
  {| apiKey := apiKey s; base64Image := base64Image s;
     imagePreview := imagePreview s; mimeType := mimeType s;
     prompt := prompt s; generatedImage := generatedImage s;
     generatedText := generatedText s; isLoading := isLoading s;
     isEnhancing := isEnhancing s; error := error s;
     statusMessage := statusMessage s; history := history s;
     sourceMode := sourceMode s; initialPrompt := initialPrompt s;
     isGeneratingInitial := isGeneratingInitial s; localStorage := v;
     network := network s; timers := timers s |}.

Definition withNetwork (v : list Request) (s : State) : State :=
  {| apiKey := apiKey s; base64Image := base64Image s;
     imagePreview := imagePreview s; mimeType := mimeType s;
     prompt := prompt s; generatedImage := generatedImage s;
     generatedText := generatedText s; isLoading := isLoading s;
     isEnhancing := isEnhancing s; error := error s;
     statusMessage := statusMessage s; history := history s;
     sourceMode := sourceMode s; initialPrompt := initialPrompt s;
     isGeneratingInitial := isGeneratingInitial s;
     localStorage := localStorage s; network := v; timers := timers s |}.

Definition withTimers (v : list (Z * string)) (s : State) : State :=
  {| apiKey := apiKey s; base64Image := base64Image s;
     imagePreview := imagePreview s; mimeType := mimeType s;
     prompt := prompt s; generatedImage := generatedImage s;
     generatedText := generatedText s; isLoading := isLoading s;
     isEnhancing := isEnhancing s; error := error s;
     statusMessage := statusMessage s; history := history s;
     sourceMode := sourceMode s; initialPrompt := initialPrompt s;
     isGeneratingInitial := isGeneratingInitial s;
     localStorage := localStorage s; network := network s; timers := v |}.

(** Everything the handlers ask of their environment.  [storageSetItem v]
    is the outcome of [localStorage.setItem(HISTORY_KEY, JSON.stringify(v))]:
    [None] when the text is stored, [Some e] when the call throws [e] (the
    quota is exceeded, storage is disabled). *)
Record World : Type := {
  browser : Compositor.Browser;
  createObjectURL : Compositor.File -> string;
  fetchBlob : string -> Settled string;
  dateNow : Z;
  remote : Remote;
  storageSetItem : list HistoryItem -> option Thrown
}.

Notation "s |> f" := (f s) (at level 45, left associativity, only parsing).

Definition send (sent : list Request) (s : State) : State :=
  withNetwork (network s ++ sent) s.

Definition setTimeout (delay : Z) (message : string) (s : State) : State :=
  withTimers (timers s ++ [(delay, message)]) s.


(** The string behind a value that a guard has shown to be present. *)
Definition narrow (o : option string) : string :=
  match o with
  | Some v => v
  | None => ""
  end.

(** [err instanceof Error ? err.message : fallback]. *)
Definition messageOr (fallback : string) (e : Thrown) : string :=
  match e with
  | JsError m => m
  | NotAnError => fallback
  end.

Definition initialState : State :=
  {| apiKey := ""; base64Image := None; imagePreview := None;
     mimeType := None;
     prompt := "красивый солнечный день с пушистыми облаками";
     generatedImage := None; generatedText := None; isLoading := false;
     isEnhancing := false; error := None; statusMessage := "";
     history := []; sourceMode := upload;
     initialPrompt := "Робот держит красный скейтборд";
     isGeneratingInitial := false; localStorage := Absent; network := [];
     timers := [] |}.

(** [updateHistory] sets the history, then writes it to the store.  The
    result is the state reached and what the write threw, if anything:
    when it throws, the history is set already and the store keeps its
    old text. *)
Definition updateHistory (w : World) (newHistory : list HistoryItem)
    (s : State) : State * option Thrown :=
  let s1 := s |> setHistory newHistory in
  match storageSetItem w newHistory with
  | None => (s1 |> withStorage (Encodes newHistory), None)
  | Some err => (s1, Some err)
  end.

Definition handleImageUpload (w : World) (file : Compositor.File)
    (s : State) : State :=
  let s1 := s |> setError None |> setGeneratedImage None
              |> setGeneratedText None
              |> setImagePreview (Some (createObjectURL w file)) in
  match Compositor.createImageTemplate (browser w) file with
  | Fulfilled r =>
      s1 |> setBase64Image (Some (Compositor.base64 r))
         |> setMimeType (Some (Compositor.mimeType r))
  | Rejected err =>
      s1 |> setError (Some (messageOr "Не удалось обработать изображение." err))
  end.

Definition handleGenerateInitial (w : World) (s : State) : State :=
  if negb (truthy (Some (initialPrompt s))) then
    s |> setError (Some "Пожалуйста, введите описание для генерации изображения.")
  else if negb (truthy (Some (apiKey s))) then
    s |> setError (Some "Пожалуйста, введите ваш API ключ.")
  else
    let s1 := s |> setIsGeneratingInitial true |> setError None
                |> setGeneratedImage None |> setGeneratedText None
                |> setImagePreview None |> setBase64Image None in
    let '(sent, settled) :=
      generateSourceImage (remote w) (initialPrompt s) (apiKey s) in
    let s2 := send sent s1 in
    let fallback := "Не удалось сгенерировать исходное изображение." in
    let s3 :=
      match settled with
      | Fulfilled generatedBase64 =>
          let dataUrl := "data:image/png;base64," ++ generatedBase64 in
          match fetchBlob w dataUrl with
          | Fulfilled blob =>
              let file :=
                {| Compositor.file_name := "generated.png";
                   Compositor.file_type := "image/png";
                   Compositor.file_bytes := blob |} in
              s2 |> handleImageUpload w file |> setSourceMode upload
          | Rejected err => s2 |> setError (Some (messageOr fallback err))
          end
      | Rejected err => s2 |> setError (Some (messageOr fallback err))
      end in
    s3 |> setIsGeneratingInitial false.

Definition handleGenerate (w : World) (s : State) : State :=
  if (negb (truthy (base64Image s)) || negb (truthy (mimeType s))
      || negb (truthy (Some (prompt s))) || negb (truthy (Some (apiKey s))))%bool
  then
    s |> setError (Some "Пожалуйста, загрузите изображение, введите описание и укажите ваш API-ключ.")
  else
    let s1 := s |> setIsLoading true |> setError None
                |> setGeneratedImage None |> setGeneratedText None
                |> setStatusMessage "Инициализация модели..." in
    let s2 := s1 |> setTimeout 1500 "Анализ изображения и подсказки..."
                 |> setTimeout 4000 "Расширение сцены до 16:9..." in
    let '(sent, settled) :=
      generatePanorama (remote w) (narrow (base64Image s))
        (narrow (mimeType s)) (prompt s) (apiKey s) in
    let s3 := send sent s2 in
    (* the rest of the [try] block: the state it reaches, what it throws *)
    let '(s4, thrown) :=
      match settled with
      | Fulfilled result =>
          let s5 := s3 |> setGeneratedImage (imageUrl result)
                       |> setGeneratedText (text result)
                       |> setStatusMessage "Панорама успешно создана!" in
          if truthy (imageUrl result) then
            let newItem :=
              {| id := dateNow w;
                 item_prompt := prompt s;
                 templateImageBase64 := narrow (base64Image s);
                 templateImageMimeType := narrow (mimeType s);
                 generatedImageUrl := narrow (imageUrl result) |} in
            s5 |> updateHistory w (newItem :: history s)
          else (s5, None)
      | Rejected err => (s3, Some err)
      end in
    (* [catch] *)
    let s6 :=
      match thrown with
      | Some err =>
          s4 |> setError (Some (messageOr "Произошла неизвестная ошибка." err))
             |> setStatusMessage ""
      | None => s4
      end in
    (* [finally] *)
    s6 |> setIsLoading false.

Definition handleEnhance (w : World) (s : State) : State :=
  if negb (truthy (generatedImage s)) then
    s |> setError (Some "Нет изображения для улучшения.")
  else if negb (truthy (Some (apiKey s))) then
    s |> setError (Some "Пожалуйста, введите ваш API ключ.")
  else
    let s1 := s |> setIsEnhancing true |> setError None
                |> setGeneratedText None in
    let fallback := "Произошла неизвестная ошибка при улучшении." in
    (* the [try] block: the state it reaches, what it throws *)
    let '(s2, thrown) :=
      match split "," (narrow (generatedImage s)) with
      | [header; base64Data] =>
          let mimeType :=
            let group := match_colon_semicolon header in
            if truthy group then narrow group else "image/png" in
          let '(sent, settled) :=
            enhanceImage (remote w) base64Data mimeType (apiKey s) in
          let s3 := send sent s1 in
          match settled with
          | Fulfilled result =>
              let s4 := s3 |> setGeneratedImage (imageUrl result)
                           |> setGeneratedText (text result) in
              match history s with
              | latestHistoryItem :: older =>
                  if truthy (imageUrl result) then
                    let updatedItem :=
                      {| id := id latestHistoryItem;
                         item_prompt := item_prompt latestHistoryItem;
                         templateImageBase64 :=
                           templateImageBase64 latestHistoryItem;
                         templateImageMimeType :=
                           templateImageMimeType latestHistoryItem;
                         generatedImageUrl := narrow (imageUrl result) |} in
                    s4 |> updateHistory w (updatedItem :: older)
                  else (s4, None)
              | [] => (s4, None)
              end
          | Rejected err => (s3, Some err)
          end
      | _ => (s1, Some (JsError "Неверный формат Data URL изображения"))
      end in
    (* [catch] *)
    let s5 :=
      match thrown with
      | Some err => s2 |> setError (Some (messageOr fallback err))
      | None => s2
      end in
    (* [finally] *)
    s5 |> setIsEnhancing false.

Definition handleReuseItem (item : HistoryItem) (s : State) : State :=
  s |> setPrompt (item_prompt item)
    |> setBase64Image (Some (templateImageBase64 item))
    |> setMimeType (Some (templateImageMimeType item))
    |> setImagePreview
         (Some ("data:" ++ templateImageMimeType item ++ ";base64,"
                ++ templateImageBase64 item))
    |> setGeneratedImage (Some (generatedImageUrl item))
    |> setGeneratedText None
    |> setError None
    |> setSourceMode upload.

(** The two handlers of the history panel call [updateHistory] outside of
    any [try]: what the write throws leaves the handler uncaught and is
    reported on the console only; the history set before it stays. *)
Definition handleDeleteItem (w : World) (target : Z) (s : State) : State :=
  fst (s |> updateHistory w
              (filter (fun item => negb (id item =? target)%Z) (history s))).

Definition handleClearHistory (w : World) (s : State) : State :=
  fst (s |> updateHistory w []).

Definition isGenerateDisabled (s : State) : bool :=
  (negb (truthy (base64Image s)) || negb (truthy (Some (prompt s)))
   || isLoading s || negb (truthy (Some (apiKey s))))%bool.

End Controller.

(* ------------------------------------------------------------------ *)
(** ** Vocabulary of the statements *)

Module Spec.
Import Js Service Controller.
Local Open Scope string_scope.

(** The intrinsic width or height of a decoded image: a positive
    [unsigned long] of the DOM. *)
Definition imageSize (z : Z) : Prop := 0 < z < 2 ^ 32.

(** A number that is not negative (and not NaN). *)
Definition nonneg (x : number) : Prop :=
  match x with
  | S754_zero _ => True
  | S754_finite s _ _ => s = false
  | S754_infinity s => s = false
  | S754_nan => False
  end.

(** A data URL with a non-empty payload. *)
Definition isDataUrl (url : string) : Prop :=
  exists mime payload,
    payload <> "" /\ url = "data:" ++ mime ++ ";base64," ++ payload.

(** Template, prompt and credential are all present: the guard of
    [handleGenerate] lets the action through. *)
Definition canGenerate (s : State) : bool :=
  (truthy (base64Image s) && truthy (mimeType s)
   && truthy (Some (prompt s)) && truthy (Some (apiKey s)))%bool.

Definition preconditionMessage : string :=
  "Пожалуйста, загрузите изображение, введите описание и укажите ваш API-ключ.".

(** The entry that a successful outpaint records. *)
Definition entryOf (w : World) (s : State) (result : PanoramaResult)
  : HistoryItem :=
  {| id := dateNow w;
     item_prompt := prompt s;
     templateImageBase64 := narrow (base64Image s);
     templateImageMimeType := narrow (mimeType s);
     generatedImageUrl := narrow (imageUrl result) |}.

(** The outpaint call that [handleGenerate] issues from state [s]. *)
Definition outpaintCall (w : World) (s : State) : Call PanoramaResult :=
  generatePanorama (remote w) (narrow (base64Image s))
    (narrow (mimeType s)) (prompt s) (apiKey s).

(** The invariant of the loop over the parts of a response: the image
    URL found so far, if any, is a data URL with a non-empty payload. *)
Definition urlInvariant (o : option string) : Prop :=
  match o with
  | None => True
  | Some url => isDataUrl url
  end.

(** A history entry with its result image replaced. *)
Definition withResult (item : HistoryItem) (url : string) : HistoryItem :=
  {| id := id item;
     item_prompt := item_prompt item;
     templateImageBase64 := templateImageBase64 item;
     templateImageMimeType := templateImageMimeType item;
     generatedImageUrl := url |}.

(** A displayed result and a credential are present: the guards of
    [handleEnhance] let the action through. *)
Definition canEnhance (s : State) : bool :=
  (truthy (generatedImage s) && truthy (Some (apiKey s)))%bool.



(** An action ended in an error when it left an error message behind. *)
Definition endedInError (s' : State) : Prop := error s' <> None.

End Spec.

(* ------------------------------------------------------------------ *)
(** ** Sample environments and states *)

Module Samples.
Import Js Service Controller.
Local Open Scope string_scope.

Definition pngBrowser : Compositor.Browser :=
  {| Compositor.decode := fun _ => Some (2000, 1000);
     Compositor.getContext2d := true;
     Compositor.toDataURL := fun _ => "data:image/png;base64,AAAA" |}.

Definition imageAndCaption : GenerateContentResponse :=
  {| candidates := Some
       [ {| content_parts := Some
              [ {| inlineData := None; part_text := Some "caption" |};
                {| inlineData := Some {| Service.data := Some "QUJD";
                                         Service.mimeType := Some "image/jpeg" |};
                   part_text := None |} ] |} ] |}.

(** A service that answers every request with an image and a caption. *)
Definition answering : Remote :=
  {| generateImages := fun _ _ _ =>
       Fulfilled {| generatedImages := Some [ {| image := Some (Some "QUJD") |} ] |};
     generateContent := fun _ _ _ _ _ => Fulfilled imageAndCaption |}.

(** A service that fails every request. *)
Definition failing : Remote :=
  {| generateImages := fun _ _ _ => Rejected (JsError "503");
     generateContent := fun _ _ _ _ _ => Rejected (JsError "503") |}.

Definition worldWith (r : Remote) : World :=
  {| browser := pngBrowser;
     createObjectURL := fun _ => "blob:preview";
     fetchBlob := fun url => Fulfilled url;
     dateNow := 1700000000000;
     remote := r;
     storageSetItem := fun _ => None |}.

(** The same environment with a store that refuses every write. *)
Definition quotaExceeded : Thrown := JsError "The quota has been exceeded.".

Definition fullStore (r : Remote) : World :=
  {| browser := pngBrowser;
     createObjectURL := fun _ => "blob:preview";
     fetchBlob := fun url => Fulfilled url;
     dateNow := 1700000000000;
     remote := r;
     storageSetItem := fun _ => Some quotaExceeded |}.

Definition olderEntry : HistoryItem :=
  {| id := 1600000000000;
     item_prompt := "sunset";
     templateImageBase64 := "BBBB";
     templateImageMimeType := "image/png";
     generatedImageUrl := "data:image/png;base64,T0xE" |}.

Definition newestEntry : HistoryItem :=
  {| id := 1650000000000;
     item_prompt := "forest";
     templateImageBase64 := "AAAA";
     templateImageMimeType := "image/png";
     generatedImageUrl := "data:image/png;base64,TkVX" |}.

(** A session with a template, a key, a displayed result and two
    history entries. *)
Definition ready : State :=
  {| apiKey := "key";
     base64Image := Some "AAAA";
     imagePreview := Some "blob:preview";
     mimeType := Some "image/png";
     prompt := "forest";
     generatedImage := Some "data:image/png;base64,TkVX";
     generatedText := Some "a forest";
     isLoading := false; isEnhancing := false; error := None;
     statusMessage := "Панорама успешно создана!";
     history := [newestEntry; olderEntry];
     sourceMode := upload;
     initialPrompt := "robot";
     isGeneratingInitial := false;
     localStorage := Encodes [newestEntry; olderEntry];
     network := [];
     timers := [] |}.

(** The same session without a credential. *)
Definition keyless : State := setApiKey "" ready.

Definition aFile : Compositor.File :=
  {| Compositor.file_name := "photo.png";
     Compositor.file_type := "image/png";
     Compositor.file_bytes := "" |}.

End Samples.

(* ------------------------------------------------------------------ *)
(** ** The component without history ([src/App.tsx]) *)

Module SimpleApp.
Import Js.
Import Service.
Local Open Scope string_scope.

(** The ten [useState] cells of this [App], the requests sent so far and
    the scheduled status updates. *)
Record State : Type := {
  apiKey : string;
  base64Image : option string;
  imagePreview : option string;
  mimeType : option string;
  prompt : string;
  generatedImage : option string;
  generatedText : option string;
  isLoading : bool;
  error : option string;
  statusMessage : string;
  network : list Request;
  timers : list (Z * string)
}.

Definition setApiKey (v : string) (s : State) : State :=
  {| apiKey := v; base64Image := base64Image s;
     imagePreview := imagePreview s; mimeType := mimeType s;
     prompt := prompt s; generatedImage := generatedImage s;
     generatedText := generatedText s; isLoading := isLoading s;
     error := error s; statusMessage := statusMessage s;
     network := network s; timers := timers s |}.

Definition setBase64Image (v : option string) (s : State) : State :=
  {| apiKey := apiKey s; base64Image := v; imagePreview := imagePreview s;
     mimeType := mimeType s; prompt := prompt s;
     generatedImage := generatedImage s; generatedText := generatedText s;
     isLoading := isLoading s; error := error s;
     statusMessage := statusMessage s; network := network s;
     timers := timers s |}.

Definition setImagePreview (v : option string) (s : State) : State :=
  {| apiKey := apiKey s; base64Image := base64Image s; imagePreview := v;
     mimeType := mimeType s; prompt := prompt s;
     generatedImage := generatedImage s; generatedText := generatedText s;
     isLoading := isLoading s; error := error s;
     statusMessage := statusMessage s; network := network s;
     timers := timers s |}.

Definition setMimeType (v : option string) (s : State) : State :=
  {| apiKey := apiKey s; base64Image := base64Image s;
     imagePreview := imagePreview s; mimeType := v; prompt := prompt s;
     generatedImage := generatedImage s; generatedText := generatedText s;
     isLoading := isLoading s; error := error s;
     statusMessage := statusMessage s; network := network s;
     timers := timers s |}.

Definition setPrompt (v : string) (s : State) : State :=
  {| apiKey := apiKey s; base64Image := base64Image s;
     imagePreview := imagePreview s; mimeType := mimeType s; prompt := v;
     generatedImage := generatedImage s; generatedText := generatedText s;
     isLoading := isLoading s; error := error s;
     statusMessage := statusMessage s; network := network s;
     timers := timers s |}.

Definition setGeneratedImage (v : option string) (s : State) : State :=
  {| apiKey := apiKey s; base64Image := base64Image s;
     imagePreview := imagePreview s; mimeType := mimeType s;
     prompt := prompt s; generatedImage := v;
     generatedText := generatedText s; isLoading := isLoading s;
     error := error s; statusMessage := statusMessage s;
     network := network s; timers := timers s |}.

Definition setGeneratedText (v : option string) (s : State) : State :=
  {| apiKey := apiKey s; base64Image := base64Image s;
     imagePreview := imagePreview s; mimeType := mimeType s;
     prompt := prompt s; generatedImage := generatedImage s;
     generatedText := v; isLoading := isLoading s; error := error s;
     statusMessage := statusMessage s; network := network s;
     timers := timers s |}.

Definition setIsLoading (v : bool) (s : State) : State :=
  {| apiKey := apiKey s; base64Image := base64Image s;
     imagePreview := imagePreview s; mimeType := mimeType s;
     prompt := prompt s; generatedImage := generatedImage s;
     generatedText := generatedText s; isLoading := v; error := error s;
     statusMessage := statusMessage s; network := network s;
     timers := timers s |}.

Definition setError (v : option string) (s : State) : State :=
  {| apiKey := apiKey s; base64Image := base64Image s;
     imagePreview := imagePreview s; mimeType := mimeType s;
     prompt := prompt s; generatedImage := generatedImage s;
     generatedText := generatedText s; isLoading := isLoading s; error := v;
     statusMessage := statusMessage s; network := network s;
     timers := timers s |}.

Definition setStatusMessage (v : string) (s : State) : State :=
  {| apiKey := apiKey s; base64Image := base64Image s;
     imagePreview := imagePreview s; mimeType := mimeType s;
     prompt := prompt s; generatedImage := generatedImage s;
     generatedText := generatedText s; isLoading := isLoading s;
     error := error s; statusMessage := v; network := network s;
     timers := timers s |}.

Definition withNetwork (v : list Request) (s : State) : State :=
  {| apiKey := apiKey s; base64Image := base64Image s;
     imagePreview := imagePreview s; mimeType := mimeType s;
     prompt := prompt s; generatedImage := generatedImage s;
     generatedText := generatedText s; isLoading := isLoading s;
     error := error s; statusMessage := statusMessage s; network := v;
     timers := timers s |}.

Definition withTimers (v : list (Z * string)) (s : State) : State :=
  {| apiKey := apiKey s; base64Image := base64Image s;
     imagePreview := imagePreview s; mimeType := mimeType s;
     prompt := prompt s; generatedImage := generatedImage s;
     generatedText := generatedText s; isLoading := isLoading s;
     error := error s; statusMessage := statusMessage s;
     network := network s; timers := v |}.

Notation "s |> f" := (f s) (at level 45, left associativity, only parsing).

Definition send (sent : list Request) (s : State) : State :=
  withNetwork (network s ++ sent) s.

Definition setTimeout (delay : Z) (message : string) (s : State) : State :=
  withTimers (timers s ++ [(delay, message)]) s.

Definition handleImageUpload (w : Controller.World) (file : Compositor.File)
    (s : State) : State :=
  let s1 := s |> setError None |> setGeneratedImage None
              |> setGeneratedText None
              |> setImagePreview (Some (Controller.createObjectURL w file)) in
  match Compositor.createImageTemplate (Controller.browser w) file with
  | Fulfilled r =>
      s1 |> setBase64Image (Some (Compositor.base64 r))
         |> setMimeType (Some (Compositor.mimeType r))
  | Rejected err =>
      s1 |> setError
              (Some (Controller.messageOr "Не удалось обработать изображение." err))
  end.

Definition handleGenerate (w : Controller.World) (s : State) : State :=
  if (negb (truthy (base64Image s)) || negb (truthy (mimeType s))
      || negb (truthy (Some (prompt s))) || negb (truthy (Some (apiKey s))))%bool
  then
    s |> setError (Some "Пожалуйста, загрузите изображение, введите описание и укажите ваш API-ключ.")
  else
    let s1 := s |> setIsLoading true |> setError None
                |> setGeneratedImage None |> setGeneratedText None
                |> setStatusMessage "Инициализация модели Nano Banana..." in
    let s2 := s1 |> setTimeout 1500 "Анализ изображения и подсказки..."
                 |> setTimeout 4000 "Расширение сцены до 16:9..." in
    let '(sent, settled) :=
      generatePanorama (Controller.remote w)
        (Controller.narrow (base64Image s))
        (Controller.narrow (mimeType s)) (prompt s) (apiKey s) in
    let s3 := send sent s2 in
    let s4 :=
      match settled with
      | Fulfilled result =>
          s3 |> setGeneratedImage (imageUrl result)
             |> setGeneratedText (text result)
             |> setStatusMessage "Панорама успешно создана!"
      | Rejected err =>
          s3 |> setError
                  (Some (Controller.messageOr "Произошла неизвестная ошибка." err))
             |> setStatusMessage ""
      end in
    s4 |> setIsLoading false.

Definition isGenerateDisabled (s : State) : bool :=
  (negb (truthy (base64Image s)) || negb (truthy (Some (prompt s)))
   || negb (truthy (Some (apiKey s))) || isLoading s)%bool.

End SimpleApp.

(* ------------------------------------------------------------------ *)
(** ** The session as a whole: mounting, the history panel, user actions *)

Module Session.
Import Js Service Controller.
Local Open Scope string_scope.

(** The effect run once on mount: it reads the store and leaves it as it
    is, also when the text cannot be read back. *)
Definition loadHistory (s : State) : State :=
  match localStorage s with
  | Absent => s
  | Encodes entries => s |> setHistory entries
  | Malformed => s |> setHistory []
  end.

(** A page load: fresh component state over the given store, then the
    mount effect. *)
Definition boot (store : StoredText) : State :=
  initialState |> withStorage store |> loadHistory.

(** [handleClear] of the history panel; [confirmed] is the answer to
    [window.confirm]. *)
Definition handleClear (w : World) (confirmed : bool) (s : State) : State :=
  if confirmed then handleClearHistory w s else s.

(** What the user can do to a mounted component. *)
Inductive Action : Type :=
| Upload (file : Compositor.File)
| GenerateInitial
| Generate
| Enhance
| Reuse (item : HistoryItem)
| Delete (target : Z)
| Clear (confirmed : bool)
| TypePrompt (v : string)
| TypeInitialPrompt (v : string)
| TypeKey (v : string)
| SwitchMode (m : SourceMode).

Definition run (w : World) (a : Action) (s : State) : State :=
  match a with
  | Upload file => handleImageUpload w file s
  | GenerateInitial => handleGenerateInitial w s
  | Generate => handleGenerate w s
  | Enhance => handleEnhance w s
  | Reuse item => handleReuseItem item s
  | Delete target => handleDeleteItem w target s
  | Clear confirmed => handleClear w confirmed s
  | TypePrompt v => setPrompt v s
  | TypeInitialPrompt v => setInitialPrompt v s
  | TypeKey v => setApiKey v s
  | SwitchMode m => setSourceMode m s
  end.

(** The history panel offers reuse only for the entries it lists. *)
Definition offered (a : Action) (s : State) : Prop :=
  match a with
  | Reuse item => In item (history s)
  | _ => True
  end.

End Session.

(* ------------------------------------------------------------------ *)
(** ** Vocabulary of the further statements *)

Module Facts.
Import Js Service Controller Session.
Local Open Scope string_scope.

(** [c] does not occur in [s]. *)
Fixpoint lacks (c : ascii) (s : string) : bool :=
  match s with
  | EmptyString => true
  | String c' r => (negb (Ascii.eqb c' c) && lacks c r)%bool
  end.

(** No line terminator starts anywhere in [s]. *)
Fixpoint lineFree (s : string) : bool :=
  match s with
  | EmptyString => true
  | String _ r => (negb (starts_with_line_terminator s) && lineFree r)%bool
  end.

(** [separator.join(parts)]. *)
Fixpoint join (sep : ascii) (parts : list string) : string :=
  match parts with
  | [] => EmptyString
  | [p] => p
  | p :: rest => p ++ String sep (join sep rest)
  end.

(** A part of a response that carries image data. *)
Definition hasImage (part : Part) : bool :=
  match inlineData part with
  | Some blob => truthy (data blob)
  | None => false
  end.

(** A part that carries no image data but a text. *)
Definition hasText (part : Part) : bool :=
  (negb (hasImage part) && truthy (part_text part))%bool.

(** The data URL of an image part. *)
Definition urlOf (part : Part) : string :=
  match inlineData part with
  | Some blob =>
      "data:" ++ show (Service.mimeType blob) ++ ";base64,"
      ++ show (data blob)
  | None => ""
  end.

(** The last element of a list that satisfies a test. *)
Definition findLast {A : Type} (test : A -> bool) (l : list A) : option A :=
  find test (rev l).

(** The three messages a wrapper can reject with. *)
Definition wrapperMessage (generic m : string) : Prop :=
  m = missingKey \/ m = configMessage \/ m = generic.

(** A thrown error whose message contains one of the two markers of a
    credential or permission failure. *)
Definition marked (e : Thrown) : Prop :=
  exists msg pre post,
    e = JsError msg
    /\ (msg = pre ++ "API_KEY" ++ post
        \/ msg = pre ++ "permission denied" ++ post).

(** A response whose first candidate offers no image: no candidates, no
    parts, or no part with image data. *)
Definition noImage (response : GenerateContentResponse) : Prop :=
  match candidates response with
  | Some (first :: _) =>
      match content_parts first with
      | Some parts => findLast hasImage parts = None
      | None => True
      end
  | _ => True
  end.

(** The credential carried by a request. *)
Definition keyOf (r : Request) : string :=
  match r with
  | GenerateImages _ _ k => k
  | GenerateContent _ _ _ _ k => k
  end.

(** The history that the store gives back on the next page load. *)
Definition persisted (s : State) : list HistoryItem :=
  match localStorage s with
  | Encodes entries => entries
  | Absent | Malformed => []
  end.

(** The store holds the history that is displayed. *)
Definition synced (s : State) : Prop := persisted s = history s.

(** An entry whose template has a format tag whenever it has a payload. *)
Definition entryTagged (item : HistoryItem) : Prop :=
  templateImageBase64 item <> "" -> templateImageMimeType item <> "".

(** The template of the session and of every entry has a format tag
    whenever it has a payload. *)
Definition templatesTagged (s : State) : Prop :=
  (truthy (base64Image s) = true -> truthy (Controller.mimeType s) = true)
  /\ Forall entryTagged (history s).

(** The displayed result and the result of every entry are data URLs. *)
Definition resultsAreDataUrls (s : State) : Prop :=
  (forall url, generatedImage s = Some url -> Spec.isDataUrl url)
  /\ Forall (fun item => Spec.isDataUrl (generatedImageUrl item)) (history s).

(** No action is pending. *)
Definition idle (s : State) : Prop :=
  isLoading s = false /\ isEnhancing s = false
  /\ isGeneratingInitial s = false.

(** The state of the component without history inside the full one. *)
Definition view (s : State) : SimpleApp.State :=
  {| SimpleApp.apiKey := apiKey s;
     SimpleApp.base64Image := base64Image s;
     SimpleApp.imagePreview := imagePreview s;
     SimpleApp.mimeType := Controller.mimeType s;
     SimpleApp.prompt := prompt s;
     SimpleApp.generatedImage := generatedImage s;
     SimpleApp.generatedText := generatedText s;
     SimpleApp.isLoading := isLoading s;
     SimpleApp.error := error s;
     SimpleApp.statusMessage := statusMessage s;
     SimpleApp.network := network s;
     SimpleApp.timers := timers s |}.

End Facts.

(* ------------------------------------------------------------------ *)
(** ** Binary64 arithmetic: rounding in the normal range *)

Section FloatFacts.
Import Js Spec.

Lemma digits2_pos_bounds (m : positive) :
  2 ^ (Zpos (digits2_pos m) - 1) <= Zpos m < 2 ^ Zpos (digits2_pos m).
Proof.
  induction m as [m IH|m IH|]; cbn [digits2_pos].
  - rewrite Pos2Z.inj_succ.
    replace (Z.succ (Zpos (digits2_pos m)) - 1) with (Zpos (digits2_pos m)) by lia.
    rewrite Z.pow_succ_r by lia.
    replace (2 ^ Zpos (digits2_pos m)) with (2 * 2 ^ (Zpos (digits2_pos m) - 1)) in *
      by (rewrite <- Z.pow_succ_r by lia; f_equal; lia).
    lia.
  - rewrite Pos2Z.inj_succ.
    replace (Z.succ (Zpos (digits2_pos m)) - 1) with (Zpos (digits2_pos m)) by lia.
    rewrite Z.pow_succ_r by lia.
    replace (2 ^ Zpos (digits2_pos m)) with (2 * 2 ^ (Zpos (digits2_pos m) - 1)) in *
      by (rewrite <- Z.pow_succ_r by lia; f_equal; lia).
    lia.
  - cbn. lia.
Qed.

Lemma digits2_pos_unique (m : positive) (d : Z) :
  2 ^ (d - 1) <= Zpos m < 2 ^ d -> Zpos (digits2_pos m) = d.
Proof.
  intros [Lo Hi].
  pose proof (digits2_pos_bounds m) as [Lo' Hi'].
  assert (0 < d).
  { destruct (Z.ltb_spec 0 d); [assumption|].
    exfalso. destruct (Z.eq_dec d 0) as [->|]; [cbn in Hi; lia|].
    rewrite Z.pow_neg_r in Hi by lia. lia. }
  assert (d - 1 < Zpos (digits2_pos m)).
  { apply (Z.pow_lt_mono_r_iff 2); lia. }
  assert (Zpos (digits2_pos m) - 1 < d).
  { apply (Z.pow_lt_mono_r_iff 2); lia. }
  lia.
Qed.

Lemma shr_1_m mrs :
  0 <= shr_m mrs -> shr_m (shr_1 mrs) = shr_m mrs / 2.
Proof.
  destruct mrs as [m r s]. cbn [shr_m shr_1].
  destruct m as [|[p|p|]|p]; intro H; cbn [shr_m]; try lia.
  - reflexivity.
  - apply Z.div_unique with 1; lia.
  - apply Z.div_unique with 0; lia.
  - reflexivity.
Qed.

Lemma iter_pos_shr_m (p : positive) : forall mrs,
  0 <= shr_m mrs ->
  shr_m (iter_pos shr_1 p mrs) = shr_m mrs / 2 ^ Zpos p.
Proof.
  induction p as [p IH|p IH|]; intros mrs H; cbn [iter_pos].
  - assert (H1 : 0 <= shr_m (shr_1 mrs)).
    { rewrite shr_1_m by assumption. apply Z.div_pos; lia. }
    assert (H2 : 0 <= shr_m (iter_pos shr_1 p (shr_1 mrs))).
    { rewrite IH by assumption. apply Z.div_pos; lia. }
    rewrite IH, IH, shr_1_m by assumption.
    rewrite !Z.div_div by lia.
    f_equal. change 2 with (2 ^ 1) at 1.
    rewrite <- !Z.pow_add_r by lia. f_equal. lia.
  - assert (H2 : 0 <= shr_m (iter_pos shr_1 p mrs)).
    { rewrite IH by assumption. apply Z.div_pos; lia. }
    rewrite IH, IH by assumption.
    rewrite !Z.div_div by lia.
    f_equal. rewrite <- Z.pow_add_r by lia. f_equal. lia.
  - now apply shr_1_m.
Qed.

Lemma fexp_normal e : -1021 <= e -> fexp prec emax e = e - 53.
Proof. unfold fexp, emin, prec, emax. lia. Qed.

Lemma shr_fexp_normal (m : positive) e l d :
  Zpos (digits2_pos m) = d -> 53 <= d -> -1074 <= d + e - 53 ->
  exists mrs,
    shr_fexp prec emax (Zpos m) e l = (mrs, e + (d - 53))
    /\ shr_m mrs = Zpos m / 2 ^ (d - 53)
    /\ (d = 53 -> mrs = shr_record_of_loc (Zpos m) l).
Proof.
  intros D Hd He. unfold shr_fexp. cbn [Zdigits2]. rewrite D.
  unfold fexp, emin, prec, emax.
  replace (Z.max (d + e - 53) (3 - 1024 - 53) - e) with (d - 53) by lia.
  destruct (d - 53) as [|p|p] eqn:N; cbn [shr].
  - exists (shr_record_of_loc (Zpos m) l). rewrite Z.add_0_r.
    repeat split. destruct l as [|[]]; cbn [shr_record_of_loc shr_m];
      now rewrite Z.pow_0_r, Z.div_1_r.
  - eexists. split; [reflexivity|]. split; [|lia].
    rewrite iter_pos_shr_m; destruct l as [|[]];
      cbn [shr_record_of_loc shr_m]; (reflexivity || lia).
  - lia.
Qed.

Lemma round_nearest_even_range m l :
  m <= round_nearest_even m l <= m + 1.
Proof.
  unfold round_nearest_even.
  destruct l as [|[]]; try destruct (Z.even m); lia.
Qed.

Lemma binary_round_aux_normal (m : positive) e l d :
  Zpos (digits2_pos m) = d -> 53 <= d ->
  -1074 <= d + e - 53 -> d + e - 53 < 971 ->
  exists m' e',
    binary_round_aux prec emax false (Zpos m) e l = S754_finite false m' e'
    /\ 2 ^ 52 <= Zpos m' < 2 ^ 53
    /\ ((e' = e + (d - 53)
         /\ Zpos m / 2 ^ (d - 53) <= Zpos m' <= Zpos m / 2 ^ (d - 53) + 1)
        \/ (e' = e + (d - 53) + 1 /\ Zpos m' = 2 ^ 52
            /\ Zpos m / 2 ^ (d - 53) + 1 = 2 ^ 53))
    /\ (d = 53 -> l = loc_Exact -> m' = m /\ e' = e).
Proof.
  intros D Hd Lo Hi.
  destruct (shr_fexp_normal m e l d D Hd Lo) as (mrs & E1 & M1 & X1).
  unfold binary_round_aux. rewrite E1. cbv beta iota.
  set (q := Zpos m / 2 ^ (d - 53)) in *.
  assert (Q : 2 ^ 52 <= q < 2 ^ 53).
  { pose proof (digits2_pos_bounds m) as [B1 B2]. rewrite D in B1, B2.
    assert (P : 0 < 2 ^ (d - 53)) by (apply Z.pow_pos_nonneg; lia).
    split.
    - apply Z.div_le_lower_bound; [exact P|].
      rewrite Z.mul_comm, <- Z.pow_add_r by lia.
      replace (52 + (d - 53)) with (d - 1) by lia. exact B1.
    - apply Z.div_lt_upper_bound; [exact P|].
      rewrite Z.mul_comm, <- Z.pow_add_r by lia.
      replace (53 + (d - 53)) with d by lia. exact B2. }
  pose proof (round_nearest_even_range (shr_m mrs) (loc_of_shr_record mrs)) as R.
  assert (X2 : d = 53 -> l = loc_Exact ->
               round_nearest_even (shr_m mrs) (loc_of_shr_record mrs) = Zpos m).
  { intros E53 ->. rewrite (X1 E53). reflexivity. }
  remember (round_nearest_even (shr_m mrs) (loc_of_shr_record mrs)) as m1 eqn:M.
  clear M. rewrite M1 in R.
  destruct m1 as [|p1|p1]; try lia.
  destruct (Z.ltb_spec (Zpos p1) (2 ^ 53)) as [Small|Big].
  - assert (D1 : Zpos (digits2_pos p1) = 53).
    { apply digits2_pos_unique. change (53 - 1) with 52. lia. }
    destruct (shr_fexp_normal p1 (e + (d - 53)) loc_Exact 53 D1) as (mrs2 & E2 & M2 & X3);
      [lia | lia |].
    rewrite E2. cbv beta iota. rewrite (X3 eq_refl).
    cbn [shr_record_of_loc shr_m].
    replace (e + (d - 53) + (53 - 53)) with (e + (d - 53)) by lia.
    replace (e + (d - 53) <=? emax - prec) with true
      by (symmetry; apply Z.leb_le; unfold emax, prec; lia).
    exists p1, (e + (d - 53)). split; [reflexivity|]. split; [lia|].
    split; [left; lia|].
    intros E53 EL. specialize (X2 E53 EL). injection X2 as ->. split; [reflexivity|lia].
  - assert (E53 : Zpos p1 = 2 ^ 53) by lia.
    assert (D1 : Zpos (digits2_pos p1) = 54).
    { apply digits2_pos_unique. rewrite E53. change (54 - 1) with 53.
      split; [lia|]. apply Z.pow_lt_mono_r; lia. }
    destruct (shr_fexp_normal p1 (e + (d - 53)) loc_Exact 54 D1) as (mrs2 & E2 & M2 & X3);
      [lia | lia |].
    rewrite E2. cbv beta iota. rewrite M2, E53.
    change (2 ^ 53 / 2 ^ (54 - 53)) with (Zpos (2 ^ 52)).
    replace (e + (d - 53) + (54 - 53) <=? emax - prec) with true
      by (symmetry; apply Z.leb_le; unfold emax, prec; lia).
    exists (2 ^ 52)%positive, (e + (d - 53) + (54 - 53)).
    split; [reflexivity|]. split; [split; [reflexivity|reflexivity]|].
    split; [right; repeat split; lia|].
    intros Ed EL. specialize (X2 Ed EL).
    pose proof (digits2_pos_bounds m) as [_ B2]. rewrite D, Ed in B2. lia.
Qed.

Lemma iter_xO_value (k : positive) : forall m,
  Zpos (Pos.iter xO m k) = Zpos m * 2 ^ Zpos k.
Proof.
  induction k as [|k IH] using Pos.peano_ind; intro m.
  - cbn. lia.
  - rewrite Pos.iter_succ, Pos2Z.inj_xO, IH, Pos2Z.inj_succ, Z.pow_succ_r by lia.
    lia.
Qed.

(** The aligned mantissa of [shl_align]. *)
Lemma shl_align_value m e e' :
  e' <= e -> Zpos (fst (shl_align m e e')) = Zpos m * 2 ^ (e - e').
Proof.
  intro Le. unfold shl_align.
  destruct (e' - e) as [|k|k] eqn:K; cbn [fst].
  - replace (e - e') with 0 by lia. lia.
  - lia.
  - rewrite iter_xO_value. f_equal. f_equal. lia.
Qed.

Lemma shl_align_exponent m e e' :
  e' <= e -> snd (shl_align m e e') = e' \/ (e = e' /\ snd (shl_align m e e') = e).
Proof.
  intro Le. unfold shl_align.
  destruct (e' - e) as [|k|k] eqn:K; cbn [snd]; lia.
Qed.

(** An integer of at most 53 bits is a number, exactly. *)
Lemma of_Z_normal (z : Z) :
  0 < z < 2 ^ 53 ->
  exists m e,
    of_Z z = S754_finite false m e
    /\ 2 ^ 52 <= Zpos m < 2 ^ 53
    /\ Zpos m = z * 2 ^ (- e)
    /\ e = Zdigits2 z - 53.
Proof.
  intros [Pos Hi]. destruct z as [|p|p]; try lia.
  unfold of_Z, binary_normalize, binary_round.
  pose proof (digits2_pos_bounds p) as [B1 B2].
  set (d := Zpos (digits2_pos p)) in *.
  assert (D : 1 <= d <= 53).
  { split; [unfold d; lia|].
    assert (d - 1 < 53); [|lia]. apply (Z.pow_lt_mono_r_iff 2); lia. }
  rewrite fexp_normal by lia.
  replace (d + 0 - 53) with (d - 53) by lia.
  pose proof (shl_align_value p 0 (d - 53) ltac:(lia)) as V.
  assert (X : snd (shl_align p 0 (d - 53)) = d - 53).
  { destruct (shl_align_exponent p 0 (d - 53)); lia. }
  destruct (shl_align p 0 (d - 53)) as [mz ez]. cbn [fst snd] in V, X. subst ez.
  replace (0 - (d - 53)) with (53 - d) in V by lia.
  assert (M : 2 ^ 52 <= Zpos mz < 2 ^ 53).
  { rewrite V. split.
    - replace 52 with ((d - 1) + (53 - d)) by lia. rewrite Z.pow_add_r by lia.
      apply Z.mul_le_mono_nonneg_r; [apply Z.pow_nonneg|]; lia.
    - replace 53 with (d + (53 - d)) at 2 by lia. rewrite Z.pow_add_r by lia.
      apply Z.mul_lt_mono_pos_r; [apply Z.pow_pos_nonneg|]; lia. }
  assert (Dz : Zpos (digits2_pos mz) = 53).
  { apply digits2_pos_unique. exact M. }
  destruct (binary_round_aux_normal mz (d - 53) loc_Exact 53 Dz)
    as (m' & e' & E & _ & _ & X); try lia.
  destruct (X eq_refl eq_refl) as [-> ->].
  exists mz, (d - 53). rewrite E.
  repeat split; try lia.
  rewrite V. f_equal. f_equal. lia.
Qed.

(** The quotient of two normal numbers, before rounding. *)
Lemma div_unfold (mx my : positive) (ex ey : Z) :
  2 ^ 52 <= Zpos mx < 2 ^ 53 -> 2 ^ 52 <= Zpos my < 2 ^ 53 ->
  -1021 <= ex - ey ->
  div (S754_finite false mx ex) (S754_finite false my ey)
  = binary_round_aux prec emax false
      (Zpos mx * 2 ^ 53 / Zpos my) (ex - ey - 53)
      (new_location (Zpos my) ((Zpos mx * 2 ^ 53) mod Zpos my)).
Proof.
  intros Mx My Lo.
  assert (Dx : Zpos (digits2_pos mx) = 53) by (apply digits2_pos_unique; exact Mx).
  assert (Dy : Zpos (digits2_pos my) = 53) by (apply digits2_pos_unique; exact My).
  unfold div, SFdiv, SFdiv_core_binary. cbn [Zdigits2 xorb]. rewrite Dx, Dy.
  rewrite fexp_normal by lia.
  replace (Z.min (53 + ex - (53 + ey) - 53) (ex - ey)) with (ex - ey - 53) by lia.
  replace (ex - ey - (ex - ey - 53)) with 53 by lia.
  rewrite Z.shiftl_mul_pow2 by lia.
  unfold Z.div, Z.modulo.
  destruct (Z.div_eucl (Zpos mx * 2 ^ 53) (Zpos my)) as [q r].
  reflexivity.
Qed.

Lemma new_location_below (n r : Z) :
  0 < r -> 2 * r + 1 <= n -> new_location n r = loc_Inexact Lt.
Proof.
  intros R Half. unfold new_location, new_location_even, new_location_odd.
  assert (N : (r =? 0) = false) by (apply Z.eqb_neq; lia).
  destruct (Z.even n); cbv beta; rewrite N.
  - replace (2 * r ?= n) with Lt by (symmetry; apply Z.compare_lt_iff; lia).
    reflexivity.
  - destruct (Z.compare_spec (2 * r + 1) n); try reflexivity; lia.
Qed.

Lemma new_location_above (n r : Z) :
  0 < r -> n < 2 * r -> new_location n r = loc_Inexact Gt.
Proof.
  intros R Half. unfold new_location, new_location_even, new_location_odd.
  assert (N : (r =? 0) = false) by (apply Z.eqb_neq; lia).
  destruct (Z.even n); cbv beta; rewrite N.
  - replace (2 * r ?= n) with Gt by (symmetry; apply Z.compare_gt_iff; lia).
    reflexivity.
  - destruct (Z.compare_spec (2 * r + 1) n); try reflexivity; lia.
Qed.

(** The quotient of two normal numbers is normal: the integer quotient of
    the mantissas, shifted to 53 bits and rounded by at most one unit. *)
Lemma div_normal (mx my : positive) (ex ey : Z) :
  2 ^ 52 <= Zpos mx < 2 ^ 53 -> 2 ^ 52 <= Zpos my < 2 ^ 53 ->
  -1021 <= ex - ey -> ex - ey < 1020 ->
  exists d m' e',
    let q := Zpos mx * 2 ^ 53 / Zpos my in
    div (S754_finite false mx ex) (S754_finite false my ey)
    = S754_finite false m' e'
    /\ 2 ^ (d - 1) <= q < 2 ^ d /\ 53 <= d <= 54
    /\ 2 ^ 52 <= Zpos m' < 2 ^ 53
    /\ ((e' = ex - ey - 53 + (d - 53)
         /\ q / 2 ^ (d - 53) <= Zpos m' <= q / 2 ^ (d - 53) + 1)
        \/ (e' = ex - ey - 53 + (d - 53) + 1 /\ Zpos m' = 2 ^ 52
            /\ q / 2 ^ (d - 53) + 1 = 2 ^ 53)).
Proof.
  intros Mx My Lo Hi. rewrite div_unfold by assumption. cbv zeta.
  set (q := Zpos mx * 2 ^ 53 / Zpos my).
  assert (Q : 2 ^ 52 <= q < 2 ^ 54).
  { split.
    - apply Z.div_le_lower_bound; nia.
    - apply Z.div_lt_upper_bound; nia. }
  destruct q as [|pq|pq] eqn:Eq; try lia.
  set (d := Zpos (digits2_pos pq)).
  pose proof (digits2_pos_bounds pq) as B. fold d in B.
  assert (D : 53 <= d <= 54).
  { split.
    - assert (52 < d); [|lia]. apply (Z.pow_lt_mono_r_iff 2); lia.
    - assert (d - 1 < 54); [|lia]. apply (Z.pow_lt_mono_r_iff 2); lia. }
  destruct (binary_round_aux_normal pq (ex - ey - 53)
              (new_location (Zpos my) ((Zpos mx * 2 ^ 53) mod Zpos my))
              d eq_refl)
    as (m' & e' & E & M & C & _); try lia.
  exists d, m', e'. rewrite E.
  repeat split; first [lia | exact C].
Qed.

Lemma ltb_finite m1 e1 m2 e2 :
  SFltb (S754_finite false m1 e1) (S754_finite false m2 e2) = true
  <-> e1 < e2 \/ (e1 = e2 /\ Zpos m1 < Zpos m2).
Proof.
  unfold SFltb, SFcompare. change (Pos.compare_cont Eq m1 m2) with (m1 ?= m2)%positive.
  destruct (Z.compare_spec e1 e2); [destruct (Pos.compare_spec m1 m2)| |];
    split; intro X; try discriminate; try reflexivity; lia.
Qed.

Lemma leb_finite m1 e1 m2 e2 :
  SFleb (S754_finite false m1 e1) (S754_finite false m2 e2) = true
  <-> e1 < e2 \/ (e1 = e2 /\ Zpos m1 <= Zpos m2).
Proof.
  unfold SFleb, SFcompare. change (Pos.compare_cont Eq m1 m2) with (m1 ?= m2)%positive.
  destruct (Z.compare_spec e1 e2); [destruct (Pos.compare_spec m1 m2)| |];
    split; intro X; try discriminate; try reflexivity; lia.
Qed.

Lemma TARGET_WIDTH_value :
  Compositor.TARGET_WIDTH = S754_finite false 5629499534213120 (-42).
Proof. reflexivity. Qed.

Lemma TARGET_HEIGHT_value :
  Compositor.TARGET_HEIGHT = S754_finite false 6333186975989760 (-43).
Proof. reflexivity. Qed.

Lemma TARGET_ASPECT_RATIO_value :
  Compositor.TARGET_ASPECT_RATIO = S754_finite false 8006399337547548 (-52).
Proof. reflexivity. Qed.

(** A normal quotient above the target ratio scales the height to at most
    the target height. *)
Lemma height_fits (ma : positive) (ea : Z) :
  2 ^ 52 <= Zpos ma < 2 ^ 53 -> -85 <= ea <= -20 ->
  gt (S754_finite false ma ea) Compositor.TARGET_ASPECT_RATIO = true ->
  exists m e,
    div Compositor.TARGET_WIDTH (S754_finite false ma ea) = S754_finite false m e
    /\ 2 ^ 52 <= Zpos m < 2 ^ 53
    /\ le (S754_finite false m e) Compositor.TARGET_HEIGHT = true.
Proof.
  intros Ma Ea Gt.
  unfold gt in Gt. rewrite TARGET_ASPECT_RATIO_value in Gt.
  apply ltb_finite in Gt.
  rewrite TARGET_WIDTH_value, TARGET_HEIGHT_value.
  destruct (div_normal 5629499534213120 ma (-42) ea) as (d & m & e & E & Q & D & M & C);
    try lia.
  cbv zeta in *. exists m, e. split; [exact E|]. split; [exact M|].
  unfold le. apply leb_finite.
  change (Zpos 5629499534213120 * 2 ^ 53) with (5 * 2 ^ 103) in *.
  set (q := 5 * 2 ^ 103 / Zpos ma) in *.
  assert (Up : q <= 5 * 2 ^ 51).
  { apply Z.div_le_upper_bound; lia. }
  destruct Gt as [Far|[Near Above]].
  - (* the ratio is at least 2 *)
    assert (d = 53 \/ d = 54) as [->| ->] by lia.
    + change (2 ^ (53 - 53)) with 1 in C. rewrite Z.div_1_r in C. lia.
    + change (2 ^ (54 - 53)) with 2 in C.
      assert (q / 2 <= 5 * 2 ^ 50) by (apply Z.div_le_upper_bound; lia).
      lia.
  - (* the ratio lies between the target ratio and 2 *)
    assert (Lt : q < 45 * 2 ^ 47).
    { apply Z.div_lt_upper_bound; lia. }
    assert (d = 53).
    { assert (d - 1 < 53); [|lia]. apply (Z.pow_lt_mono_r_iff 2); lia. }
    subst d. change (2 ^ (53 - 53)) with 1 in C. rewrite Z.div_1_r in C. lia.
Qed.

(** A normal quotient not above the target ratio scales the width to at
    most the target width. *)
Lemma width_fits (ma : positive) (ea : Z) :
  2 ^ 52 <= Zpos ma < 2 ^ 53 -> -85 <= ea <= -20 ->
  gt (S754_finite false ma ea) Compositor.TARGET_ASPECT_RATIO = false ->
  exists m e,
    mul Compositor.TARGET_HEIGHT (S754_finite false ma ea) = S754_finite false m e
    /\ 2 ^ 52 <= Zpos m < 2 ^ 53
    /\ le (S754_finite false m e) Compositor.TARGET_WIDTH = true.
Proof.
  intros Ma Ea NotGt.
  assert (Below : ea < -52 \/ (ea = -52 /\ Zpos ma <= 8006399337547548)).
  { unfold gt in NotGt. rewrite TARGET_ASPECT_RATIO_value in NotGt.
    destruct (Z_lt_le_dec ea (-52)) as [|Ge]; [now left|right].
    destruct (Z_le_gt_dec (Zpos ma) 8006399337547548) as [|Hi].
    - split; [|assumption].
      destruct (Z.eq_dec ea (-52)); [assumption|].
      assert (T : SFltb (S754_finite false 8006399337547548 (-52))
                    (S754_finite false ma ea) = true)
        by (apply ltb_finite; lia).
      congruence.
    - assert (T : SFltb (S754_finite false 8006399337547548 (-52))
                    (S754_finite false ma ea) = true)
        by (apply ltb_finite; lia).
      congruence. }
  rewrite TARGET_WIDTH_value, TARGET_HEIGHT_value.
  unfold mul, SFmul. cbn [xorb].
  set (p := (6333186975989760 * ma)%positive).
  assert (P : Zpos p = 45 * 2 ^ 47 * Zpos ma) by (unfold p; lia).
  pose proof (digits2_pos_bounds p) as B.
  set (d := Zpos (digits2_pos p)) in *.
  assert (D : d = 105 \/ d = 106).
  { assert (104 < d) by (apply (Z.pow_lt_mono_r_iff 2); lia).
    assert (d - 1 < 106) by (apply (Z.pow_lt_mono_r_iff 2); lia).
    lia. }
  destruct (binary_round_aux_normal p (-43 + ea) loc_Exact d eq_refl)
    as (m & e & E & M & C & _); try lia.
  exists m, e. split; [exact E|]. split; [exact M|].
  unfold le. apply leb_finite.
  destruct D as [-> | ->].
  - change (2 ^ (105 - 53)) with (2 ^ 52) in C. lia.
  - change (2 ^ (106 - 53)) with (2 ^ 53) in C.
    destruct Below as [Far|[Near Le]].
    + assert (Zpos p / 2 ^ 53 < 45 * 2 ^ 47)
        by (apply Z.div_lt_upper_bound; lia).
      lia.
    + assert (Zpos p / 2 ^ 53 < 5 * 2 ^ 50)
        by (apply Z.div_lt_upper_bound; lia).
      lia.
Qed.

Lemma nonneg_ge_zero x : nonneg x -> ge x (of_Z 0) = true.
Proof.
  destruct x as [s|s| |s m e]; cbn [nonneg]; intro N; subst;
    (reflexivity || contradiction).
Qed.

Lemma shr_fexp_nonneg m e l :
  0 <= m -> 0 <= shr_m (fst (shr_fexp prec emax m e l)).
Proof.
  intro M. unfold shr_fexp, shr.
  assert (S : shr_m (shr_record_of_loc m l) = m) by (destruct l as [|[]]; reflexivity).
  destruct (fexp prec emax (Zdigits2 m + e) - e) as [|k|k]; cbn [fst];
    rewrite ?iter_pos_shr_m, S; try lia.
  apply Z.div_pos; lia.
Qed.

Lemma binary_round_aux_nonneg m e l :
  0 <= m -> nonneg (binary_round_aux prec emax false m e l).
Proof.
  intro M. unfold binary_round_aux.
  pose proof (shr_fexp_nonneg m e l M) as S1.
  destruct (shr_fexp prec emax m e l) as [mrs1 e1]. cbn [fst] in S1.
  pose proof (round_nearest_even_range (shr_m mrs1) (loc_of_shr_record mrs1)) as R.
  pose proof (shr_fexp_nonneg
                (round_nearest_even (shr_m mrs1) (loc_of_shr_record mrs1))
                e1 loc_Exact ltac:(lia)) as S2.
  destruct (shr_fexp prec emax _ e1 loc_Exact) as [mrs2 e2]. cbn [fst] in S2.
  destruct (shr_m mrs2) as [|k|k]; cbn [nonneg]; try lia; try exact I.
  destruct (e2 <=? emax - prec); reflexivity.
Qed.

(** The difference of two normal numbers, the larger first, is not
    negative. *)
Lemma sub_nonneg (mx my : positive) (ex ey : Z) :
  2 ^ 52 <= Zpos mx < 2 ^ 53 -> 2 ^ 52 <= Zpos my < 2 ^ 53 ->
  le (S754_finite false my ey) (S754_finite false mx ex) = true ->
  nonneg (sub (S754_finite false mx ex) (S754_finite false my ey)).
Proof.
  intros Mx My Le. apply leb_finite in Le.
  unfold sub, SFsub. cbn [cond_Zopp].
  replace (Z.min ex ey) with ey by lia.
  rewrite !shl_align_value by lia.
  replace (ey - ey) with 0 by lia. rewrite Z.pow_0_r, Z.mul_1_r.
  assert (D : 0 <= Zpos mx * 2 ^ (ex - ey) - Zpos my).
  { destruct Le as [Lt|[E Le]].
    - assert (2 ^ 1 <= 2 ^ (ex - ey)) by (apply Z.pow_le_mono_r; lia).
      change (2 ^ 1) with 2 in *. nia.
    - replace (ex - ey) with 0 by lia. lia. }
  destruct (Zpos mx * 2 ^ (ex - ey) - Zpos my) as [|k|k];
    cbn [binary_normalize nonneg]; try lia; try exact I.
  unfold binary_round.
  destruct (shl_align k ey _) as [mz ez].
  apply binary_round_aux_nonneg. lia.
Qed.

Lemma half_nonneg x : nonneg x -> nonneg (div x (of_Z 2)).
Proof.
  change (of_Z 2) with (S754_finite false 4503599627370496 (-51)).
  destruct x as [s|s| |s m e]; cbn [nonneg]; intro N; subst;
    try exact I; try reflexivity; try contradiction.
  unfold div, SFdiv, SFdiv_core_binary. cbn [xorb].
  set (m' := match _ - _ - _ with Z0 => Zpos m | Zpos _ => _ | Zneg _ => 0 end).
  assert (M : 0 <= m').
  { unfold m'. destruct (_ - _ - _); try lia. apply Z.shiftl_nonneg. lia. }
  pose proof (Z_div_mod m' (Zpos 4503599627370496) ltac:(lia)) as DM.
  destruct (Z.div_eucl m' (Zpos 4503599627370496)) as [q r].
  apply binary_round_aux_nonneg. nia.
Qed.

Lemma Zdigits2_small z : 0 < z < 2 ^ 32 -> 1 <= Zdigits2 z <= 32.
Proof.
  intros [Pos Hi]. destruct z as [|p|p]; try lia. cbn [Zdigits2].
  pose proof (digits2_pos_bounds p) as [B _].
  split; [lia|].
  assert (Zpos (digits2_pos p) - 1 < 32); [|lia].
  apply (Z.pow_lt_mono_r_iff 2); lia.
Qed.

(** Two normal numbers in the ratio 16:9 have the target ratio as their
    quotient. *)
Lemma div_sixteen_ninths (mx my : positive) (ex ey : Z) :
  2 ^ 52 <= Zpos mx < 2 ^ 53 -> 2 ^ 52 <= Zpos my < 2 ^ 53 ->
  (ex - ey = 0 /\ 9 * Zpos mx = 16 * Zpos my)
  \/ (ex - ey = 1 /\ 9 * Zpos mx = 8 * Zpos my) ->
  div (S754_finite false mx ex) (S754_finite false my ey)
  = Compositor.TARGET_ASPECT_RATIO.
Proof.
  intros Mx My Ratio. rewrite div_unfold by lia.
  rewrite TARGET_ASPECT_RATIO_value.
  destruct Ratio as [[K R]|[K R]]; rewrite K.
  - assert (Q : Zpos mx * 2 ^ 53 / Zpos my = 2 * 8006399337547548).
    { symmetry.
      apply Z.div_unique with (Zpos mx * 2 ^ 53 - Zpos my * (2 * 8006399337547548));
        lia. }
    assert (M : (Zpos mx * 2 ^ 53) mod Zpos my
                = Zpos mx * 2 ^ 53 - Zpos my * (2 * 8006399337547548)).
    { symmetry.
      apply Z.mod_unique with (2 * 8006399337547548); lia. }
    rewrite Q, M, new_location_above by lia.
    reflexivity.
  - assert (Q : Zpos mx * 2 ^ 53 / Zpos my = 8006399337547548).
    { symmetry.
      apply Z.div_unique with (Zpos mx * 2 ^ 53 - Zpos my * 8006399337547548);
        lia. }
    assert (M : (Zpos mx * 2 ^ 53) mod Zpos my
                = Zpos mx * 2 ^ 53 - Zpos my * 8006399337547548).
    { symmetry.
      apply Z.mod_unique with 8006399337547548; lia. }
    rewrite Q, M, new_location_below by lia.
    reflexivity.
Qed.

(** The aspect ratio of an image is a normal number, and the test of the
    source against the target ratio agrees with the exact comparison of
    w/h with 16/9. *)
Lemma aspect_ratio_spec (w h : Z) :
  imageSize w -> imageSize h ->
  exists ma ea,
    div (of_Z w) (of_Z h) = S754_finite false ma ea
    /\ 2 ^ 52 <= Zpos ma < 2 ^ 53
    /\ -85 <= ea <= -20
    /\ gt (S754_finite false ma ea) Compositor.TARGET_ASPECT_RATIO
       = (16 * h <? 9 * w).
Proof.
  unfold imageSize. intros W H.
  destruct (of_Z_normal w) as (mw & ew & Ew & Mw & Vw & Dw); [lia|].
  destruct (of_Z_normal h) as (mh & eh & Eh & Mh & Vh & Dh); [lia|].
  pose proof (Zdigits2_small w W) as Rw.
  pose proof (Zdigits2_small h H) as Rh.
  destruct (div_normal mw mh ew eh Mw Mh) as (d & ma & ea & E & Q & D & M & C);
    try lia.
  cbv zeta in *. exists ma, ea. rewrite Ew, Eh.
  split; [exact E|]. split; [exact M|]. split; [lia|].
  (* the mantissas are the sizes scaled by powers of two *)
  set (A := 2 ^ (- ew)) in *. set (B := 2 ^ (- eh)) in *.
  assert (PA : 2 ^ 21 <= A) by (apply Z.pow_le_mono_r; lia).
  assert (PB : 2 ^ 21 <= B) by (apply Z.pow_le_mono_r; lia).
  set (q := Zpos mw * 2 ^ 53 / Zpos mh) in *.
  assert (Pos : 0 < Zpos mh) by lia.
  (* how to read the test *)
  assert (Yes : -52 < ea \/ (-52 = ea /\ 8006399337547548 < Zpos ma) ->
                gt (S754_finite false ma ea) Compositor.TARGET_ASPECT_RATIO = true).
  { intro T. unfold gt. rewrite TARGET_ASPECT_RATIO_value.
    now apply ltb_finite. }
  assert (No : ea < -52 \/ (ea = -52 /\ Zpos ma <= 8006399337547548) ->
               gt (S754_finite false ma ea) Compositor.TARGET_ASPECT_RATIO = false).
  { intro T. destruct (gt _ _) eqn:G; [|reflexivity].
    unfold gt in G. rewrite TARGET_ASPECT_RATIO_value in G.
    apply ltb_finite in G. lia. }
  destruct (Z_lt_le_dec (ew - eh) 0) as [Neg|NonNeg].
  - (* the height has more bits than the width *)
    assert (K : A = B * 2 ^ (eh - ew)).
    { unfold A, B. rewrite <- Z.pow_add_r by lia. f_equal. lia. }
    assert (P : 2 ^ 1 <= 2 ^ (eh - ew)) by (apply Z.pow_le_mono_r; lia).
    change (2 ^ 1) with 2 in P.
    assert (Taller : w < h) by nia.
    replace (16 * h <? 9 * w) with false by (symmetry; apply Z.ltb_ge; lia).
    apply No. lia.
  - destruct (Z.eq_dec (ew - eh) 0) as [K0|NotK0].
    + (* as many bits in the width as in the height *)
      assert (K : B = A) by (unfold A, B; f_equal; lia).
      rewrite K in Vh.
      destruct (Z.ltb_spec (16 * h) (9 * w)) as [Wide|NotWide].
      * apply Yes.
        assert (Gap : 16 * Zpos mh + 2 ^ 21 <= 9 * Zpos mw) by nia.
        assert (Lo : 2 * (8006399337547548 + 1) <= q)
          by (apply Z.div_le_lower_bound; lia).
        assert (d = 54).
        { assert (53 < d); [|lia]. apply (Z.pow_lt_mono_r_iff 2); lia. }
        subst d. change (2 ^ (54 - 53)) with 2 in C.
        assert (8006399337547548 + 1 <= q / 2)
          by (apply Z.div_le_lower_bound; lia).
        lia.
      * destruct (Z.eq_dec (9 * w) (16 * h)) as [Same|Diff].
        -- assert (R : div (S754_finite false mw ew) (S754_finite false mh eh)
                       = Compositor.TARGET_ASPECT_RATIO).
           { apply div_sixteen_ninths; try assumption. left. split; [lia|nia]. }
           rewrite E in R. rewrite R. reflexivity.
        -- apply No.
           assert (Gap : 9 * Zpos mw + 2 ^ 21 <= 16 * Zpos mh) by nia.
           assert (Up : q < 2 * 8006399337547548)
             by (apply Z.div_lt_upper_bound; lia).
           assert (d = 53 \/ d = 54) as [->| ->] by lia.
           ++ change (2 ^ (53 - 53)) with 1 in C. rewrite Z.div_1_r in C. lia.
           ++ change (2 ^ (54 - 53)) with 2 in C.
              assert (q / 2 < 8006399337547548)
                by (apply Z.div_lt_upper_bound; lia).
              lia.
    + destruct (Z.eq_dec (ew - eh) 1) as [K1|NotK1].
      * (* one bit more in the width than in the height *)
        assert (K : B = 2 * A).
        { unfold A, B. replace (- eh) with (1 + - ew) by lia.
          rewrite Z.pow_add_r by lia. reflexivity. }
        rewrite K in Vh.
        destruct (Z.ltb_spec (16 * h) (9 * w)) as [Wide|NotWide].
        -- apply Yes.
           assert (Gap : 8 * Zpos mh + 2 ^ 21 <= 9 * Zpos mw) by nia.
           assert (Lo : 8006399337547548 + 1 <= q)
             by (apply Z.div_le_lower_bound; lia).
           assert (d = 53 \/ d = 54) as [->| ->] by lia.
           ++ change (2 ^ (53 - 53)) with 1 in C. rewrite Z.div_1_r in C. lia.
           ++ lia.
        -- destruct (Z.eq_dec (9 * w) (16 * h)) as [Same|Diff].
           ++ assert (R : div (S754_finite false mw ew) (S754_finite false mh eh)
                          = Compositor.TARGET_ASPECT_RATIO).
              { apply div_sixteen_ninths; try assumption. right. split; [lia|nia]. }
              rewrite E in R. rewrite R. reflexivity.
           ++ apply No.
              assert (Gap : 9 * Zpos mw + 2 ^ 21 <= 8 * Zpos mh) by nia.
              assert (Up : q < 8006399337547548)
                by (apply Z.div_lt_upper_bound; lia).
              assert (d = 53).
              { assert (d - 1 < 53); [|lia]. apply (Z.pow_lt_mono_r_iff 2); lia. }
              subst d. change (2 ^ (53 - 53)) with 1 in C.
              rewrite Z.div_1_r in C. lia.
      * (* at least two bits more in the width: the ratio exceeds 2 *)
        assert (K : B = A * 2 ^ (ew - eh)).
        { unfold A, B. rewrite <- Z.pow_add_r by lia. f_equal. lia. }
        assert (P : 2 ^ 2 <= 2 ^ (ew - eh)) by (apply Z.pow_le_mono_r; lia).
        change (2 ^ 2) with 4 in P.
        assert (Wide : 2 * h < w) by nia.
        replace (16 * h <? 9 * w) with true by (symmetry; apply Z.ltb_lt; lia).
        apply Yes. lia.
Qed.

End FloatFacts.

Section CompositorClaims.
Import Js Compositor Spec.

(** C1. For an image of intrinsic size [w] x [h], the test of the source
    holds exactly when w/h > 1280/720; then the compositor draws with
    width 1280 and height 1280/(w/h), and otherwise with height 720 and
    width 720*(w/h).  The offsets are (1280 - drawWidth)/2 and
    (720 - drawHeight)/2, and neither is negative.  A 2000x1000 image is
    drawn 1280x640 at (0,40), an 800x1600 image 360x720 at (460,0). *)
Theorem geometry_centred (w h : Z) :
  imageSize w -> imageSize h ->
  let ratio := div (of_Z w) (of_Z h) in
  let g := drawn (paint w h) in
  gt ratio TARGET_ASPECT_RATIO = (16 * h <? 9 * w)
  /\ (if gt ratio TARGET_ASPECT_RATIO
      then drawWidth g = of_Z 1280
           /\ drawHeight g = div (of_Z 1280) ratio
      else drawHeight g = of_Z 720
           /\ drawWidth g = mul (of_Z 720) ratio)
  /\ offsetX g = div (sub (of_Z 1280) (drawWidth g)) (of_Z 2)
  /\ offsetY g = div (sub (of_Z 720) (drawHeight g)) (of_Z 2)
  /\ ge (offsetX g) (of_Z 0) = true
  /\ ge (offsetY g) (of_Z 0) = true
  /\ drawn (paint 2000 1000)
     = {| offsetX := of_Z 0; offsetY := of_Z 40;
          drawWidth := of_Z 1280; drawHeight := of_Z 640 |}
  /\ drawn (paint 800 1600)
     = {| offsetX := of_Z 460; offsetY := of_Z 0;
          drawWidth := of_Z 360; drawHeight := of_Z 720 |}.
Proof.
  intros W H.
  destruct (aspect_ratio_spec w h W H) as (ma & ea & E & M & R & Test).
  cbv zeta. unfold paint. cbn [drawn]. unfold drawGeometry. rewrite E.
  split; [exact Test|]. clear Test.
  destruct (gt (S754_finite false ma ea) TARGET_ASPECT_RATIO) eqn:G;
    cbn [offsetX offsetY drawWidth drawHeight].
  - destruct (height_fits ma ea M R G) as (m & e & Ed & Md & Le).
    split; [split; reflexivity|]. do 3 (split; [reflexivity|]).
    split; [|split; reflexivity].
    rewrite Ed. apply nonneg_ge_zero, half_nonneg.
    rewrite TARGET_HEIGHT_value in *.
    apply sub_nonneg; [lia | exact Md | exact Le].
  - destruct (width_fits ma ea M R G) as (m & e & Ed & Md & Le).
    split; [split; reflexivity|]. do 2 (split; [reflexivity|]).
    split; [|split; [reflexivity|split; reflexivity]].
    rewrite Ed. apply nonneg_ge_zero, half_nonneg.
    rewrite TARGET_WIDTH_value in *.
    apply sub_nonneg; [lia | exact Md | exact Le].
Qed.

Lemma geometry_centred_vga :
  imageSize 640 /\ imageSize 480
  /\ ge (offsetX (drawn (paint 640 480))) (of_Z 0) = true
  /\ ge (offsetY (drawn (paint 640 480))) (of_Z 0) = true.
Proof.
  assert (W : imageSize 640) by (unfold imageSize; lia).
  assert (H : imageSize 480) by (unfold imageSize; lia).
  destruct (geometry_centred 640 480 W H) as (_ & _ & _ & _ & X & Y & _).
  exact (conj W (conj H (conj X Y))).
Defined.

(** C2, as stated, fails: a square image has width >= height, yet it is
    drawn 720 wide, not 1280. *)
Lemma square_image_is_fitted_to_height :
  1000 >= 1000
  /\ drawWidth (drawn (paint 1000 1000)) = of_Z 720
  /\ drawWidth (drawn (paint 1000 1000)) <> of_Z 1280.
Proof.
  split; [lia|]. split; [reflexivity|].
  vm_compute. discriminate.
Qed.

(** C2, amended. When w/h > 1280/720 the draw width is 1280 and the draw
    height is at most 720; when w/h <= 1280/720, and in particular whenever
    height > width, the draw height is 720 and the draw width is at most
    1280.  The canvas is always 1280 x 720. *)
Theorem scaled_size_fits (w h : Z) :
  imageSize w -> imageSize h ->
  let g := drawn (paint w h) in
  (16 * h < 9 * w ->
     drawWidth g = of_Z 1280 /\ le (drawHeight g) (of_Z 720) = true)
  /\ (9 * w <= 16 * h ->
       drawHeight g = of_Z 720 /\ le (drawWidth g) (of_Z 1280) = true)
  /\ (h > w ->
       drawHeight g = of_Z 720 /\ le (drawWidth g) (of_Z 1280) = true)
  /\ width (paint w h) = of_Z 1280
  /\ height (paint w h) = of_Z 720.
Proof.
  intros W H.
  destruct (aspect_ratio_spec w h W H) as (ma & ea & E & M & R & Test).
  cbv zeta. unfold paint. cbn [drawn width height].
  unfold drawGeometry. rewrite E. unfold imageSize in W, H.
  destruct (gt (S754_finite false ma ea) TARGET_ASPECT_RATIO) eqn:G;
    cbn [drawWidth drawHeight]; symmetry in Test.
  - apply Z.ltb_lt in Test.
    destruct (height_fits ma ea M R G) as (m & e & -> & _ & Le).
    split; [intros _; split; [reflexivity | exact Le]|].
    split; [intro N; lia|].
    split; [intro T; lia|].
    split; reflexivity.
  - apply Z.ltb_ge in Test.
    destruct (width_fits ma ea M R G) as (m & e & -> & _ & Le).
    split; [intro Wide; lia|].
    split; [intros _; split; [reflexivity | exact Le]|].
    split; [intros _; split; [reflexivity | exact Le]|].
    split; reflexivity.
Qed.

Lemma scaled_size_fits_portrait :
  imageSize 1080 /\ imageSize 1920
  /\ drawHeight (drawn (paint 1080 1920)) = of_Z 720
  /\ le (drawWidth (drawn (paint 1080 1920))) (of_Z 1280) = true.
Proof.
  assert (W : imageSize 1080) by (unfold imageSize; lia).
  assert (H : imageSize 1920) by (unfold imageSize; lia).
  destruct (scaled_size_fits 1080 1920 W H) as (_ & _ & T & _).
  destruct (T ltac:(lia)) as [X Y].
  exact (conj W (conj H (conj X Y))).
Defined.

(** C8. An image of exactly 1280 x 720 is drawn 1280 x 720 at offset
    (0,0): the destination rectangle is the whole canvas. *)
Theorem target_size_is_drawn_unscaled :
  paint 1280 720
  = {| width := of_Z 1280;
       height := of_Z 720;
       drawn := {| offsetX := of_Z 0; offsetY := of_Z 0;
                   drawWidth := of_Z 1280; drawHeight := of_Z 720 |} |}.
Proof. reflexivity. Qed.

End CompositorClaims.


(* ------------------------------------------------------------------ *)
(** ** The remote-call wrappers: results *)

Section WrapperFacts.
Import Js Service.
Local Open Scope string_scope.

Lemma truthy_Some (v : string) : truthy (Some v) = true <-> v <> "".
Proof.
  unfold truthy. rewrite negb_true_iff. split.
  - intros H E. subst v. discriminate.
  - intro H. destruct (String.eqb_spec v ""); congruence.
Qed.

Lemma truthy_narrow (o : option string) :
  truthy o = true -> o = Some (Controller.narrow o).
Proof. destruct o; [reflexivity | discriminate]. Qed.

Lemma scanPart_invariant acc part :
  Spec.urlInvariant (fst acc) -> Spec.urlInvariant (fst (scanPart acc part)).
Proof.
  destruct acc as [imageUrl text]. unfold scanPart. cbn [fst].
  intro Inv.
  destruct (inlineData part) as [blob|].
  - destruct (truthy (data blob)) eqn:Hd.
    + cbn [fst Spec.urlInvariant].
      exists (show (mimeType blob)), (show (data blob)). split.
      * destruct (data blob) as [d|]; [|discriminate].
        now apply truthy_Some.
      * reflexivity.
    + destruct (truthy (part_text part)); exact Inv.
  - destruct (truthy (part_text part)); exact Inv.
Qed.

Lemma scan_invariant parts : forall acc,
  Spec.urlInvariant (fst acc) ->
  Spec.urlInvariant (fst (fold_left scanPart parts acc)).
Proof.
  induction parts as [|part parts IH]; intros acc Inv.
  - exact Inv.
  - cbn [fold_left]. apply IH. now apply scanPart_invariant.
Qed.

Lemma extract_fulfilled missing response result :
  extract missing response = Fulfilled result ->
  exists url, imageUrl result = Some url /\ Spec.isDataUrl url.
Proof.
  unfold extract.
  destruct (candidates response) as [[|first rest]|].
  - cbn. discriminate.
  - destruct (content_parts first) as [parts|]; [|discriminate].
    pose proof (scan_invariant parts (None, None) I) as Inv.
    destruct (fold_left scanPart parts (None, None)) as [imageUrl text].
    cbn [fst] in Inv.
    destruct imageUrl as [url|]; [|cbn; discriminate].
    destruct (negb (truthy (Some url))); [discriminate|].
    intro E. injection E as <-. exists url. split; [reflexivity | exact Inv].
  - cbn. discriminate.
Qed.

Lemma rethrow_rejected {A : Type} generic e (a : A) :
  rethrow generic e <> Fulfilled a.
Proof. unfold rethrow. destruct (isConfigFailure e); discriminate. Qed.

Lemma generatePanorama_fulfilled r b m p k sent result :
  generatePanorama r b m p k = (sent, Fulfilled result) ->
  exists url, imageUrl result = Some url /\ Spec.isDataUrl url.
Proof.
  unfold generatePanorama.
  destruct (negb (truthy (Some k))); [discriminate|].
  destruct (generateContent r _ _ _ _ _) as [e|response].
  - intro E. injection E as _ E. now apply rethrow_rejected in E.
  - destruct (extract _ response) as [e|res] eqn:Ex.
    + intro E. injection E as _ E. now apply rethrow_rejected in E.
    + intro E. injection E as _ <-. eapply extract_fulfilled, Ex.
Qed.

Lemma enhanceImage_fulfilled r b m k sent result :
  enhanceImage r b m k = (sent, Fulfilled result) ->
  exists url, imageUrl result = Some url /\ Spec.isDataUrl url.
Proof.
  unfold enhanceImage.
  destruct (negb (truthy (Some k))); [discriminate|].
  destruct (generateContent r _ _ _ _ _) as [e|response].
  - intro E. injection E as _ E. now apply rethrow_rejected in E.
  - destruct (extract _ response) as [e|res] eqn:Ex.
    + intro E. injection E as _ E. now apply rethrow_rejected in E.
    + intro E. injection E as _ <-. eapply extract_fulfilled, Ex.
Qed.

Lemma isDataUrl_truthy url : Spec.isDataUrl url -> truthy (Some url) = true.
Proof.
  intros (mime & payload & _ & ->). reflexivity.
Qed.

End WrapperFacts.

(* ------------------------------------------------------------------ *)
(** ** The controller: history and error paths *)

Section ControllerFacts.
Import Js Service Controller Spec.
Local Open Scope string_scope.

Lemma canGenerate_guard s :
  (negb (truthy (base64Image s)) || negb (truthy (mimeType s))
   || negb (truthy (Some (prompt s))) || negb (truthy (Some (apiKey s))))%bool
  = negb (canGenerate s).
Proof.
  unfold canGenerate.
  destruct (truthy (base64Image s)), (truthy (mimeType s)),
    (truthy (Some (prompt s))), (truthy (Some (apiKey s))); reflexivity.
Qed.

(** [handleGenerate] once the guard has let the action through. *)
Lemma handleGenerate_issued w s :
  canGenerate s = true ->
  handleGenerate w s =
  let s2 := setTimeout 4000 "Расширение сцены до 16:9..."
             (setTimeout 1500 "Анализ изображения и подсказки..."
               (setStatusMessage "Инициализация модели..."
                 (setGeneratedText None (setGeneratedImage None
                   (setError None (setIsLoading true s)))))) in
  let s3 := send (fst (outpaintCall w s)) s2 in
  setIsLoading false
    match snd (outpaintCall w s) with
    | Fulfilled result =>
        let s5 := setStatusMessage "Панорама успешно создана!"
                    (setGeneratedText (text result)
                      (setGeneratedImage (imageUrl result) s3)) in
        if truthy (imageUrl result)
        then
          let s6 := setHistory (entryOf w s result :: history s) s5 in
          match storageSetItem w (entryOf w s result :: history s) with
          | None => withStorage (Encodes (entryOf w s result :: history s)) s6
          | Some err =>
              setStatusMessage ""
                (setError
                   (Some (messageOr "Произошла неизвестная ошибка." err)) s6)
          end
        else s5
    | Rejected err =>
        setStatusMessage ""
          (setError (Some (messageOr "Произошла неизвестная ошибка." err)) s3)
    end.
Proof.
  intro G. unfold handleGenerate. rewrite canGenerate_guard, G.
  cbn [negb]. unfold outpaintCall, updateHistory, entryOf.
  destruct (generatePanorama _ _ _ _ _) as [sent [err|result]];
    [reflexivity|].
  cbn [fst snd]. destruct (truthy (imageUrl result)); [|reflexivity].
  destruct (storageSetItem w _); reflexivity.
Qed.

Lemma handleGenerate_rejected w s :
  canGenerate s = false ->
  handleGenerate w s = setError (Some preconditionMessage) s.
Proof.
  intro G. unfold handleGenerate. rewrite canGenerate_guard, G.
  reflexivity.
Qed.

Lemma outpaint_fulfilled_truthy w s result :
  snd (outpaintCall w s) = Fulfilled result ->
  truthy (imageUrl result) = true.
Proof.
  unfold outpaintCall.
  destruct (generatePanorama _ _ _ _ _) as [sent settled] eqn:E.
  cbn [snd]. intros ->.
  apply generatePanorama_fulfilled in E as (url & -> & D).
  now apply isDataUrl_truthy.
Qed.

(** The case analysis that follows the control flow of [handleEnhance]. *)
Ltac enhance_cases w s :=
  unfold handleEnhance, canEnhance;
  destruct (truthy (generatedImage s)) eqn:?; cbn [negb andb];
  [ destruct (truthy (Some (apiKey s))) eqn:?; cbn [negb];
    [ destruct (split "," (narrow (generatedImage s)))
        as [|header [|base64Data [|extra rest]]] eqn:?;
      [ | | destruct (enhanceImage (remote w) base64Data _ (apiKey s))
              as [sent [err|result]] eqn:? | ]
    | ]
  | ].

(** A fulfilled enhance call carries an image: the condition of the
    history update is that of a non-empty history. *)
Ltac enhance_fulfilled url :=
  let E := fresh "Shown" in
  let D := fresh "Url" in
  match goal with
  | H : enhanceImage _ _ _ _ = (_, Fulfilled _) |- _ =>
      apply enhanceImage_fulfilled in H as (url & E & D);
      rewrite E, ?(isDataUrl_truthy url D); cbn [narrow]
  end.

Lemma handleEnhance_success w s :
  error (handleEnhance w s) = None ->
  exists url,
    isDataUrl url
    /\ generatedImage (handleEnhance w s) = Some url
    /\ history (handleEnhance w s)
       = match history s with
         | latest :: older => withResult latest url :: older
         | [] => []
         end.
Proof.
  enhance_cases w s; cbn; try discriminate.
  enhance_fulfilled url.
  destruct (history s) as [|latest older] eqn:P.
  - intros _. exists url. cbn. rewrite P. now repeat split.
  - unfold updateHistory.
    destruct (storageSetItem w _) as [thrown|]; cbn; [discriminate|].
    intros _. exists url. now repeat split.
Qed.







End ControllerFacts.

Section ControllerClaims.
Import Js Service Controller Spec.
Local Open Scope string_scope.

(** C4. When [handleGenerate] issues the outpaint call and the call is
    fulfilled, the new history is one fresh entry followed by the old
    history, entry for entry; when the call is rejected, the history is
    the old one. *)
Theorem generate_prepends_one_entry w s :
  canGenerate s = true ->
  match snd (outpaintCall w s) with
  | Fulfilled result =>
      history (handleGenerate w s) = entryOf w s result :: history s
      /\ List.length (history (handleGenerate w s)) = S (List.length (history s))
      /\ (forall i, nth_error (history (handleGenerate w s)) (S i)
                    = nth_error (history s) i)
  | Rejected _ =>
      history (handleGenerate w s) = history s
  end.
Proof.
  intro G. rewrite (handleGenerate_issued w s G).
  destruct (snd (outpaintCall w s)) as [err|result] eqn:E; cbn zeta.
  - reflexivity.
  - rewrite (outpaint_fulfilled_truthy w s result E).
    destruct (storageSetItem w _); cbn; repeat split.
Qed.

Lemma generate_prepends_one_entry_fulfilled :
  canGenerate Samples.ready = true
  /\ List.length (history (handleGenerate (Samples.worldWith Samples.answering)
                        Samples.ready)) = 3%nat.
Proof.
  split; [reflexivity|].
  exact (proj1 (proj2
    (generate_prepends_one_entry (Samples.worldWith Samples.answering)
       Samples.ready eq_refl))).
Defined.

(** C6. When the template payload, its format tag, the prompt or the
    credential is absent, [handleGenerate] sends no request and changes
    nothing but the error, which becomes the precondition message; that
    message names the image when the template is missing, the description
    when the prompt is missing, and the API key when the credential is
    missing. *)
Theorem generate_rejected_without_inputs w s :
  truthy (base64Image s) = false \/ truthy (mimeType s) = false
  \/ prompt s = "" \/ apiKey s = "" ->
  network (handleGenerate w s) = network s
  /\ handleGenerate w s = setError (Some preconditionMessage) s
  /\ error (handleGenerate w s) = Some preconditionMessage
  /\ (truthy (base64Image s) = false \/ truthy (mimeType s) = false ->
      includes "изображение" preconditionMessage = true)
  /\ (prompt s = "" -> includes "описание" preconditionMessage = true)
  /\ (apiKey s = "" -> includes "API-ключ" preconditionMessage = true).
Proof.
  intro Missing.
  assert (G : canGenerate s = false).
  { unfold canGenerate.
    destruct Missing as [H|[H|[H|H]]]; rewrite H;
      cbn; rewrite ?andb_false_r; reflexivity. }
  rewrite (handleGenerate_rejected w s G).
  repeat split; reflexivity.
Qed.

Lemma generate_rejected_without_inputs_keyless :
  apiKey Samples.keyless = ""
  /\ network (handleGenerate (Samples.worldWith Samples.answering)
                Samples.keyless) = [].
Proof.
  split; [reflexivity|].
  exact (proj1 (generate_rejected_without_inputs
           (Samples.worldWith Samples.answering) Samples.keyless
           (or_intror (or_intror (or_intror eq_refl))))).
Defined.

(** C7. Each of the three wrappers, called with an empty credential,
    is rejected with the missing-key error and sends no request. *)
Theorem wrappers_reject_empty_key r prompt base64ImageData mimeType :
  generateSourceImage r prompt "" = ([], Rejected (JsError missingKey))
  /\ generatePanorama r base64ImageData mimeType prompt ""
     = ([], Rejected (JsError missingKey))
  /\ enhanceImage r base64ImageData mimeType ""
     = ([], Rejected (JsError missingKey)).
Proof. repeat split. Qed.

(** C9. Reusing a history entry shows its prompt, its template (payload
    and format tag) and its result image, clears the error, sends no
    request and leaves the history and its stored copy as they were. *)
Theorem reuse_restores_entry item s :
  let s' := handleReuseItem item s in
  prompt s' = item_prompt item
  /\ base64Image s' = Some (templateImageBase64 item)
  /\ Controller.mimeType s' = Some (templateImageMimeType item)
  /\ generatedImage s' = Some (generatedImageUrl item)
  /\ generatedText s' = None
  /\ error s' = None
  /\ network s' = network s
  /\ history s' = history s
  /\ localStorage s' = localStorage s.
Proof. cbv zeta. repeat split. Qed.

(** C5. With a non-empty history, an enhance action that ends without
    error replaces the result image of the newest entry by the image now
    displayed; the identifier, prompt and template of that entry, and all
    older entries, are as before. *)
Theorem enhance_overwrites_newest_result w s latest older :
  history s = latest :: older ->
  error (handleEnhance w s) = None ->
  exists newest,
    history (handleEnhance w s) = newest :: older
    /\ id newest = id latest
    /\ item_prompt newest = item_prompt latest
    /\ templateImageBase64 newest = templateImageBase64 latest
    /\ templateImageMimeType newest = templateImageMimeType latest
    /\ Some (generatedImageUrl newest) = generatedImage (handleEnhance w s).
Proof.
  intros Past Ok.
  destruct (handleEnhance_success w s Ok) as (url & _ & Shown & Hist).
  rewrite Past in Hist.
  exists (withResult latest url).
  rewrite Hist, Shown. repeat split.
Qed.

Lemma enhance_overwrites_newest_result_ready :
  exists newest,
    history (handleEnhance (Samples.worldWith Samples.answering) Samples.ready)
    = [newest; Samples.olderEntry]
    /\ id newest = id Samples.newestEntry
    /\ item_prompt newest = item_prompt Samples.newestEntry
    /\ templateImageBase64 newest = templateImageBase64 Samples.newestEntry
    /\ templateImageMimeType newest
       = templateImageMimeType Samples.newestEntry
    /\ Some (generatedImageUrl newest)
       = generatedImage (handleEnhance (Samples.worldWith Samples.answering)
                           Samples.ready).
Proof.
  exact (enhance_overwrites_newest_result
           (Samples.worldWith Samples.answering) Samples.ready
           Samples.newestEntry [Samples.olderEntry] eq_refl eq_refl).
Defined.

(** C10. A fulfilled [generatePanorama] or [enhanceImage] carries an image
    URL of the form data:<mimeType>;base64,<payload> with a non-empty
    payload, never null.  Hence a fulfilled outpaint call always records
    its history entry, and an enhance action that ends without error always
    rewrites the newest entry of a non-empty history. *)
Theorem fulfilled_result_has_image :
  (forall r b m p k sent result,
      generatePanorama r b m p k = (sent, Fulfilled result) ->
      exists url, imageUrl result = Some url /\ isDataUrl url)
  /\ (forall r b m k sent result,
        enhanceImage r b m k = (sent, Fulfilled result) ->
        exists url, imageUrl result = Some url /\ isDataUrl url)
  /\ (forall w s result,
        canGenerate s = true ->
        snd (outpaintCall w s) = Fulfilled result ->
        history (handleGenerate w s) = entryOf w s result :: history s)
  /\ (forall w s latest older,
        history s = latest :: older ->
        error (handleEnhance w s) = None ->
        exists url,
          isDataUrl url
          /\ history (handleEnhance w s) = withResult latest url :: older).
Proof.
  split; [|split; [|split]].
  - exact generatePanorama_fulfilled.
  - exact enhanceImage_fulfilled.
  - intros w s result G E.
    rewrite (handleGenerate_issued w s G). cbn zeta. rewrite E.
    rewrite (outpaint_fulfilled_truthy w s result E).
    destruct (storageSetItem w _); reflexivity.
  - intros w s latest older Past Ok.
    destruct (handleEnhance_success w s Ok) as (url & D & _ & Hist).
    rewrite Past in Hist. now exists url.
Qed.

Lemma fulfilled_result_has_image_answering :
  exists url,
    imageUrl {| imageUrl := Some "data:image/jpeg;base64,QUJD";
                text := Some "caption" |} = Some url
    /\ isDataUrl url.
Proof.
  exact (proj1 fulfilled_result_has_image Samples.answering
           "AAAA" "image/png" "forest" "key" _ _ eq_refl).
Defined.




End ControllerClaims.

(* ------------------------------------------------------------------ *)
(** ** Strings: splitting and searching *)

Section StringFacts.
Import Js Facts.
Local Open Scope string_scope.

Lemma split_not_nil sep s : split sep s <> [].
Proof.
  destruct s as [|c r]; cbn [split]; [discriminate|].
  destruct (Ascii.eqb c sep); [discriminate|].
  destruct (split sep r); discriminate.
Qed.

Lemma split_lacking sep s : lacks sep s = true -> split sep s = [s].
Proof.
  induction s as [|c r IH]; cbn [split lacks]; [reflexivity|].
  intro L. apply andb_true_iff in L as [N L].
  apply negb_true_iff in N. rewrite N, (IH L). reflexivity.
Qed.

Lemma split_app sep a b :
  lacks sep a = true ->
  split sep (a ++ String sep b) = a :: split sep b.
Proof.
  induction a as [|c r IH]; cbn [split lacks append].
  - intros _. now rewrite Ascii.eqb_refl.
  - intro L. apply andb_true_iff in L as [N L].
    apply negb_true_iff in N. rewrite N, (IH L). reflexivity.
Qed.

Lemma split_one sep s b :
  split sep s = [b] -> s = b /\ lacks sep b = true.
Proof.
  revert b. induction s as [|c r IH]; intro b; cbn [split].
  - intro E. injection E as <-. now split.
  - destruct (Ascii.eqb_spec c sep) as [->|Ne].
    + pose proof (split_not_nil sep r). intro E. injection E as _ E.
      contradiction.
    + pose proof (split_not_nil sep r) as N.
      destruct (split sep r) as [|h [|h' t]] eqn:S;
        [contradiction| |discriminate].
      intro E. injection E as <-.
      destruct (IH h eq_refl) as [-> L].
      split; [reflexivity|].
      cbn [lacks]. rewrite L.
      destruct (Ascii.eqb_spec c sep); [contradiction|reflexivity].
Qed.

(** A split into exactly two parts pins the text down: one separator,
    with the two parts around it. *)
Lemma split_two sep s a b :
  split sep s = [a; b]
  <-> s = a ++ String sep b /\ lacks sep a = true /\ lacks sep b = true.
Proof.
  split.
  - revert a. induction s as [|c r IH]; intro a; cbn [split].
    + discriminate.
    + destruct (Ascii.eqb_spec c sep) as [->|Ne].
      * intro E. injection E as <- E.
        destruct (split_one sep r b E) as [-> L]. now repeat split.
      * pose proof (split_not_nil sep r) as N.
        destruct (split sep r) as [|h [|h' [|h'' t]]] eqn:S;
          [contradiction|discriminate| |discriminate].
        intro E. injection E as <- <-.
        destruct (IH h eq_refl) as (-> & La & Lb).
        repeat split; [|exact Lb].
        cbn [lacks]. rewrite La.
        destruct (Ascii.eqb_spec c sep); [contradiction|reflexivity].
  - intros (-> & La & Lb). rewrite (split_app sep a b La).
    now rewrite (split_lacking sep b Lb).
Qed.

Lemma join_split sep s : join sep (split sep s) = s.
Proof.
  induction s as [|c r IH]; cbn [split]; [reflexivity|].
  destruct (Ascii.eqb_spec c sep) as [->|Ne].
  - pose proof (split_not_nil sep r) as N.
    destruct (split sep r) as [|h t]; [contradiction|].
    cbn [join append]. cbn [join] in IH. now rewrite IH.
  - pose proof (split_not_nil sep r) as N.
    destruct (split sep r) as [|h t]; [contradiction|].
    destruct t as [|h' t']; cbn [join append] in *; now rewrite IH.
Qed.

Lemma prefix_app sub post : String.prefix sub (sub ++ post) = true.
Proof.
  induction sub as [|c r IH]; cbn [String.prefix append].
  - now destruct post.
  - destruct (ascii_dec c c) as [_|N]; [exact IH | contradiction].
Qed.

Lemma prefix_inv sub s :
  String.prefix sub s = true -> exists post, s = sub ++ post.
Proof.
  revert s. induction sub as [|c r IH]; intros s P.
  - now exists s.
  - destruct s as [|c' r']; cbn [String.prefix] in P; [discriminate|].
    destruct (ascii_dec c c') as [<-|]; [|discriminate].
    destruct (IH r' P) as [post ->]. now exists post.
Qed.

(** [includes] finds exactly the texts that contain the pattern. *)
Lemma includes_spec sub s :
  includes sub s = true <-> exists pre post, s = pre ++ sub ++ post.
Proof.
  split.
  - induction s as [|c r IH]; cbn [includes].
    + destruct (String.prefix sub "") eqn:P; [|discriminate].
      intros _. destruct (prefix_inv _ _ P) as [post E].
      now exists "", post.
    + destruct (String.prefix sub (String c r)) eqn:P.
      * intros _. destruct (prefix_inv _ _ P) as [post E].
        now exists "", post.
      * intro I. destruct (IH I) as (pre & post & ->).
        now exists (String c pre), post.
  - intros (pre & post & ->).
    induction pre as [|c r IH]; cbn [append].
    + destruct (sub ++ post) eqn:E; cbn [includes]; rewrite <- E;
        now rewrite prefix_app.
    + cbn [includes]. rewrite IH.
      now destruct (String.prefix sub (String c (r ++ sub ++ post))).
Qed.

End StringFacts.

(* ------------------------------------------------------------------ *)
(** ** The compositor: outcomes, degenerate sizes, scaling *)

Section CompositorFacts.
Import Js Compositor Spec Facts.
Local Open Scope string_scope.

(** X1. [createImageTemplate] is fulfilled exactly when the image decodes,
    a 2d context exists and the exported data URL has one comma; the
    payload is then the text after that comma and the format tag is
    image/png.  A decoding failure rejects with the event (not an error),
    a missing context and a malformed export each with their message. *)
Theorem createImageTemplate_outcomes (b : Browser) (file : File) :
  match createImageTemplate b file with
  | Fulfilled r =>
      mimeType r = "image/png"
      /\ exists w h header,
           decode b file = Some (w, h)
           /\ getContext2d b = true
           /\ toDataURL b (paint w h) = header ++ "," ++ base64 r
           /\ lacks "," header = true
           /\ lacks "," (base64 r) = true
  | Rejected NotAnError => decode b file = None
  | Rejected (JsError m) =>
      exists w h,
        decode b file = Some (w, h)
        /\ ((getContext2d b = false
             /\ m = "Не удалось получить контекст холста")
            \/ (getContext2d b = true
                /\ m = "Неверный формат Data URL при создании шаблона"
                /\ forall header payload,
                     lacks "," header = true -> lacks "," payload = true ->
                     toDataURL b (paint w h) <> header ++ "," ++ payload))
  end.
Proof.
  unfold createImageTemplate.
  destruct (decode b file) as [[w h]|]; [|reflexivity].
  destruct (getContext2d b); cbn [negb].
  - assert (Bad : forall parts,
               split "," (toDataURL b (paint w h)) = parts ->
               (forall x y, parts <> [x; y]) ->
               forall header payload,
                 lacks "," header = true -> lacks "," payload = true ->
                 toDataURL b (paint w h) <> header ++ "," ++ payload).
    { intros parts S N header payload Lh Lp E.
      apply (N header payload). rewrite <- S.
      apply split_two. now repeat split. }
    destruct (split "," (toDataURL b (paint w h)))
      as [|header [|payload [|extra rest]]] eqn:S.
    + exists w, h. split; [reflexivity|]. right.
      repeat split. apply (Bad [] eq_refl). discriminate.
    + exists w, h. split; [reflexivity|]. right.
      repeat split. apply (Bad [header] eq_refl). discriminate.
    + apply split_two in S as (E & Lh & Lp).
      split; [reflexivity|]. exists w, h, header. now repeat split.
    + exists w, h. split; [reflexivity|]. right.
      repeat split.
      apply (Bad (header :: payload :: extra :: rest) eq_refl). discriminate.
  - exists w, h. split; [reflexivity|]. left. now split.
Qed.

(** X2. The drawn rectangle is never empty and never larger than the
    canvas in either direction, and it spans the canvas in one of them:
    full width at horizontal offset 0, or full height at vertical
    offset 0. *)
Theorem drawn_size_positive_within_canvas (w h : Z) :
  imageSize w -> imageSize h ->
  let g := drawn (paint w h) in
  gt (drawWidth g) (of_Z 0) = true
  /\ gt (drawHeight g) (of_Z 0) = true
  /\ le (drawWidth g) (of_Z 1280) = true
  /\ le (drawHeight g) (of_Z 720) = true
  /\ ((drawWidth g = of_Z 1280 /\ offsetX g = of_Z 0)
      \/ (drawHeight g = of_Z 720 /\ offsetY g = of_Z 0)).
Proof.
  intros W H.
  destruct (aspect_ratio_spec w h W H) as (ma & ea & E & M & R & _).
  cbv zeta. unfold paint. cbn [drawn]. unfold drawGeometry. rewrite E.
  destruct (gt (S754_finite false ma ea) TARGET_ASPECT_RATIO) eqn:G;
    cbn [offsetX offsetY drawWidth drawHeight].
  - destruct (height_fits ma ea M R G) as (m & e & -> & _ & Le).
    split; [reflexivity|]. split; [reflexivity|]. split; [reflexivity|].
    split; [exact Le|]. left. split; reflexivity.
  - destruct (width_fits ma ea M R G) as (m & e & -> & _ & Le).
    split; [reflexivity|]. split; [reflexivity|]. split; [exact Le|].
    split; [reflexivity|]. right. split; reflexivity.
Qed.

Lemma drawn_size_positive_within_canvas_photo :
  imageSize 4032 /\ imageSize 3024
  /\ gt (drawWidth (drawn (paint 4032 3024))) (of_Z 0) = true
  /\ le (drawWidth (drawn (paint 4032 3024))) (of_Z 1280) = true.
Proof.
  assert (W : imageSize 4032) by (unfold imageSize; lia).
  assert (H : imageSize 3024) by (unfold imageSize; lia).
  destruct (drawn_size_positive_within_canvas 4032 3024 W H)
    as (X & _ & Y & _).
  exact (conj W (conj H (conj X Y))).
Defined.

Lemma Zdigits2_shift (z k : Z) :
  0 < z -> 0 <= k -> Zdigits2 (z * 2 ^ k) = Zdigits2 z + k.
Proof.
  intros Pz Pk.
  assert (P2 : 0 < 2 ^ k) by (apply Z.pow_pos_nonneg; lia).
  destruct z as [|p|p]; try lia.
  destruct (Zpos p * 2 ^ k) as [|p'|p'] eqn:E; try lia.
  cbn [Zdigits2].
  pose proof (digits2_pos_bounds p) as [B1 B2].
  apply digits2_pos_unique. rewrite <- E.
  replace (Zpos (digits2_pos p) + k - 1) with (Zpos (digits2_pos p) - 1 + k) by lia.
  rewrite !Z.pow_add_r by lia. split.
  - apply Z.mul_le_mono_nonneg_r; lia.
  - apply Z.mul_lt_mono_pos_r; lia.
Qed.

Lemma of_Z_shift (z k : Z) :
  0 < z -> 0 <= k -> z * 2 ^ k < 2 ^ 53 ->
  exists m e,
    of_Z z = S754_finite false m e
    /\ of_Z (z * 2 ^ k) = S754_finite false m (e + k)
    /\ 2 ^ 52 <= Zpos m < 2 ^ 53
    /\ -52 <= e /\ e + k <= 0.
Proof.
  intros Pz Pk Hi.
  assert (P2 : 1 <= 2 ^ k) by (apply Z.pow_le_mono_r with (b := 0); lia).
  assert (Pzk : 0 < z * 2 ^ k) by (apply Z.mul_pos_pos; lia).
  assert (Lzk : z * 1 <= z * 2 ^ k) by (apply Z.mul_le_mono_nonneg_l; lia).
  destruct (of_Z_normal z) as (m & e & E & M & V & D); [lia|].
  destruct (of_Z_normal (z * 2 ^ k)) as (m' & e' & E' & M' & V' & D');
    [split; assumption|].
  rewrite Zdigits2_shift in D' by lia.
  assert (Ee : e' = e + k) by lia.
  assert (Neg : e + k <= 0).
  { destruct (Z_le_gt_dec (e + k) 0) as [|Gt]; [assumption|exfalso].
    rewrite (Z.pow_neg_r 2 (- e')), Z.mul_0_r in V' by lia. lia. }
  exists m, e. split; [exact E|]. rewrite E', Ee.
  assert (D1 : 1 <= Zdigits2 z).
  { destruct z; cbn [Zdigits2]; lia. }
  split; [|repeat split; lia].
  f_equal. apply Pos2Z.inj. rewrite V', V, Ee.
  replace (- e) with (k + - (e + k)) by lia.
  rewrite Z.pow_add_r by lia. lia.
Qed.

(** X3. Scaling both sides of an image by the same power of two leaves
    the painted canvas unchanged: the geometry depends on the size only
    through the rounded quotient, which such a scaling keeps. *)
Theorem paint_scale_invariant (w h k : Z) :
  0 <= k -> imageSize w -> imageSize h ->
  imageSize (w * 2 ^ k) -> imageSize (h * 2 ^ k) ->
  paint (w * 2 ^ k) (h * 2 ^ k) = paint w h.
Proof.
  unfold imageSize. intros K W H Wk Hk.
  destruct (of_Z_shift w k) as (mw & ew & Ew & Ewk & Mw & Rw); try lia.
  destruct (of_Z_shift h k) as (mh & eh & Eh & Ehk & Mh & Rh); try lia.
  unfold paint. f_equal. unfold drawGeometry.
  rewrite Ew, Ewk, Eh, Ehk.
  rewrite (div_unfold mw mh (ew + k) (eh + k)) by lia.
  rewrite (div_unfold mw mh ew eh) by lia.
  replace (ew + k - (eh + k) - 53) with (ew - eh - 53) by lia.
  reflexivity.
Qed.

Lemma paint_scale_invariant_retina :
  paint (1170 * 2 ^ 1) (2532 * 2 ^ 1) = paint 1170 2532.
Proof.
  apply paint_scale_invariant; unfold imageSize; lia.
Defined.

(** X4. Degenerate sizes.  An image of height 0 is drawn 1280 wide and 0
    high at (0,360); an image of width 0 is drawn 0 wide and 720 high at
    (640,0); for a 0 x 0 image the draw width and the horizontal offset
    are NaN. *)
Theorem degenerate_sizes (z : Z) :
  imageSize z ->
  drawn (paint z 0)
  = {| offsetX := of_Z 0; offsetY := of_Z 360;
       drawWidth := of_Z 1280; drawHeight := of_Z 0 |}
  /\ drawn (paint 0 z)
     = {| offsetX := of_Z 640; offsetY := of_Z 0;
          drawWidth := of_Z 0; drawHeight := of_Z 720 |}
  /\ drawWidth (drawn (paint 0 0)) = S754_nan
  /\ offsetX (drawn (paint 0 0)) = S754_nan
  /\ drawHeight (drawn (paint 0 0)) = of_Z 720.
Proof.
  unfold imageSize. intro Z.
  destruct (of_Z_normal z) as (m & e & E & _); [lia|].
  unfold paint. cbn [drawn]. unfold drawGeometry. rewrite E.
  repeat split; reflexivity.
Qed.

Lemma degenerate_sizes_strip :
  imageSize 300
  /\ drawHeight (drawn (paint 300 0)) = of_Z 0
  /\ drawWidth (drawn (paint 0 300)) = of_Z 0.
Proof.
  assert (Z : imageSize 300) by (unfold imageSize; lia).
  destruct (degenerate_sizes 300 Z) as (A & B & _).
  split; [exact Z|]. split.
  - exact (f_equal drawHeight A).
  - exact (f_equal drawWidth B).
Defined.


End CompositorFacts.

(* ------------------------------------------------------------------ *)
(** ** The remote-call wrappers: which part wins, which message leaves *)

Section ServiceFacts.
Import Js Service Facts.
Local Open Scope string_scope.

Lemma findLast_cons {A : Type} (test : A -> bool) (a : A) (l : list A) :
  findLast test (a :: l)
  = match findLast test l with
    | Some x => Some x
    | None => if test a then Some a else None
    end.
Proof.
  unfold findLast. cbn [rev].
  induction (rev l) as [|x xs IH]; cbn [find app].
  - reflexivity.
  - destruct (test x); [reflexivity | exact IH].
Qed.

(** The loop over the parts, read as a search from the end. *)
Lemma scan_is_last parts : forall acc,
  fold_left scanPart parts acc
  = (match findLast hasImage parts with
     | Some p => Some (urlOf p)
     | None => fst acc
     end,
     match findLast hasText parts with
     | Some p => part_text p
     | None => snd acc
     end).
Proof.
  induction parts as [|part parts IH]; intros [imageUrl text].
  - reflexivity.
  - cbn [fold_left]. rewrite IH, !findLast_cons.
    destruct (findLast hasImage parts) as [pi|],
             (findLast hasText parts) as [pt|];
      unfold scanPart, hasText, hasImage;
      destruct (inlineData part) as [blob|] eqn:EI;
      try destruct (truthy (data blob));
      destruct (truthy (part_text part));
      cbn [negb andb fst snd]; unfold urlOf; rewrite ?EI; reflexivity.
Qed.

Lemma extract_is_last missing response result :
  extract missing response = Fulfilled result ->
  exists first rest parts img,
    candidates response = Some (first :: rest)
    /\ content_parts first = Some parts
    /\ findLast hasImage parts = Some img
    /\ imageUrl result = Some (urlOf img)
    /\ text result = match findLast hasText parts with
                     | Some p => part_text p
                     | None => None
                     end.
Proof.
  unfold extract.
  destruct (candidates response) as [[|first rest]|]; try (cbn; discriminate).
  destruct (content_parts first) as [parts|] eqn:C; [|discriminate].
  rewrite scan_is_last. cbn [fst snd].
  destruct (findLast hasImage parts) as [img|] eqn:F; [|cbn; discriminate].
  destruct (negb (truthy (Some (urlOf img)))); [discriminate|].
  intro E. injection E as <-.
  exists first, rest, parts, img. cbn [imageUrl text].
  repeat split; assumption.
Qed.

(** X5. A fulfilled [generatePanorama] or [enhanceImage] reads the first
    candidate of the response only; its image is that of the last part
    carrying image data, and its text that of the last part carrying a
    text and no image data. *)
Theorem fulfilled_result_is_last_image r b m p k sent result :
  (generatePanorama r b m p k = (sent, Fulfilled result)
   \/ enhanceImage r b m k = (sent, Fulfilled result)) ->
  exists prompt response first rest parts img,
    generateContent r geminiModel b m prompt k = Fulfilled response
    /\ candidates response = Some (first :: rest)
    /\ content_parts first = Some parts
    /\ findLast hasImage parts = Some img
    /\ imageUrl result = Some (urlOf img)
    /\ text result = match findLast hasText parts with
                     | Some t => part_text t
                     | None => None
                     end.
Proof.
  intros [E|E].
  - unfold generatePanorama in E.
    destruct (negb (truthy (Some k))); [discriminate|].
    destruct (generateContent r _ _ _ _ _) as [e|response] eqn:G.
    + injection E as _ E. now apply rethrow_rejected in E.
    + destruct (extract _ response) as [e|res] eqn:Ex.
      * injection E as _ E. now apply rethrow_rejected in E.
      * injection E as _ <-.
        destruct (extract_is_last _ _ _ Ex)
          as (first & rest & parts & img & X).
        now exists (systemPrompt ++ p), response, first, rest, parts, img.
  - unfold enhanceImage in E.
    destruct (negb (truthy (Some k))); [discriminate|].
    destruct (generateContent r _ _ _ _ _) as [e|response] eqn:G.
    + injection E as _ E. now apply rethrow_rejected in E.
    + destruct (extract _ response) as [e|res] eqn:Ex.
      * injection E as _ E. now apply rethrow_rejected in E.
      * injection E as _ <-.
        destruct (extract_is_last _ _ _ Ex)
          as (first & rest & parts & img & X).
        now exists enhancePrompt, response, first, rest, parts, img.
Qed.

Lemma fulfilled_result_is_last_image_answering :
  exists prompt response first rest parts img,
    generateContent Samples.answering geminiModel "AAAA" "image/png" prompt
      "key" = Fulfilled response
    /\ candidates response = Some (first :: rest)
    /\ content_parts first = Some parts
    /\ findLast hasImage parts = Some img
    /\ Some "data:image/jpeg;base64,QUJD" = Some (urlOf img)
    /\ Some "caption" = match findLast hasText parts with
                        | Some t => part_text t
                        | None => None
                        end.
Proof.
  exact (fulfilled_result_is_last_image Samples.answering
           "AAAA" "image/png" "forest" "key" _
           {| imageUrl := Some "data:image/jpeg;base64,QUJD";
              text := Some "caption" |}
           (or_introl eq_refl)).
Defined.

Lemma isConfigFailure_spec e : isConfigFailure e = true <-> marked e.
Proof.
  unfold marked. destruct e as [msg|]; cbn [isConfigFailure].
  - rewrite orb_true_iff, !includes_spec. split.
    + intros [(pre & post & E)|(pre & post & E)];
        exists msg, pre, post; (split; [reflexivity|]); [left|right]; exact E.
    + intros (msg' & pre & post & E & [M|M]); injection E as <-;
        [left|right]; now exists pre, post.
  - split; [discriminate|]. intros (msg & pre & post & E & _). discriminate.
Qed.

Lemma rethrow_classified {A : Type} generic e :
  (marked e -> @rethrow A generic e = Rejected (JsError configMessage))
  /\ (~ marked e -> @rethrow A generic e = Rejected (JsError generic)).
Proof.
  unfold rethrow. destruct (isConfigFailure e) eqn:C.
  - apply isConfigFailure_spec in C. split; [reflexivity|contradiction].
  - split; [|reflexivity]. intro M. apply isConfigFailure_spec in M. congruence.
Qed.

Lemma extract_noImage {A : Type} missing generic response :
  noImage response ->
  includes "API_KEY" missing = false ->
  includes "permission denied" missing = false ->
  exists e, extract missing response = Rejected e
            /\ @rethrow A generic e = Rejected (JsError generic).
Proof.
  intros N I1 I2.
  assert (Plain : @rethrow A generic (JsError missing)
                  = Rejected (JsError generic)).
  { unfold rethrow. cbn [isConfigFailure]. now rewrite I1, I2. }
  unfold noImage in N. unfold extract.
  destruct (candidates response) as [[|first rest]|].
  - exists (JsError missing). now split.
  - destruct (content_parts first) as [parts|].
    + rewrite scan_is_last, N. cbn [fst truthy negb].
      exists (JsError missing). now split.
    + exists typeError. now split.
  - exists (JsError missing). now split.
Qed.

(** X6. What the caller of [generatePanorama] or [enhanceImage] sees when
    the call goes wrong with a credential present: the configuration
    message when the service throws an error whose text contains API_KEY
    or permission denied, and the generic message of the wrapper when it
    throws anything else or answers without an image; the text of the
    service error and the no-image message themselves never leave the
    wrapper. *)
Theorem content_failures_classified r b m p k :
  k <> "" ->
  match generateContent r geminiModel b m (systemPrompt ++ p) k with
  | Rejected e =>
      (marked e ->
       snd (generatePanorama r b m p k) = Rejected (JsError configMessage))
      /\ (~ marked e ->
          snd (generatePanorama r b m p k) = Rejected (JsError panoramaGeneric))
  | Fulfilled response =>
      noImage response ->
      snd (generatePanorama r b m p k) = Rejected (JsError panoramaGeneric)
  end
  /\ match generateContent r geminiModel b m enhancePrompt k with
     | Rejected e =>
         (marked e ->
          snd (enhanceImage r b m k) = Rejected (JsError configMessage))
         /\ (~ marked e ->
             snd (enhanceImage r b m k) = Rejected (JsError enhanceGeneric))
     | Fulfilled response =>
         noImage response ->
         snd (enhanceImage r b m k) = Rejected (JsError enhanceGeneric)
     end.
Proof.
  intro K. apply truthy_Some in K.
  unfold generatePanorama, enhanceImage. rewrite K. cbn [negb].
  split.
  - destruct (generateContent r geminiModel b m (systemPrompt ++ p) k)
      as [e|response].
    + cbn [snd]. apply rethrow_classified.
    + intro N.
      destruct (extract_noImage (A := PanoramaResult)
                  "Не удалось сгенерировать изображение. Модель не вернула изображение в ответе."
                  panoramaGeneric response N eq_refl eq_refl) as (e & -> & R).
      exact R.
  - destruct (generateContent r geminiModel b m enhancePrompt k)
      as [e|response].
    + cbn [snd]. apply rethrow_classified.
    + intro N.
      destruct (extract_noImage (A := PanoramaResult)
                  "Не удалось улучшить изображение. Модель не вернула изображение в ответе."
                  enhanceGeneric response N eq_refl eq_refl) as (e & -> & R).
      exact R.
Qed.

Lemma content_failures_classified_failing :
  snd (generatePanorama Samples.failing "AAAA" "image/png" "forest" "key")
  = Rejected (JsError panoramaGeneric).
Proof.
  assert (K : "key" <> "") by discriminate.
  assert (Plain : ~ marked (JsError "503")).
  { intro M. apply isConfigFailure_spec in M. discriminate. }
  exact (proj2 (proj1 (content_failures_classified Samples.failing
                         "AAAA" "image/png" "forest" "key" K)) Plain).
Defined.

Lemma rethrow_message {A : Type} generic e :
  exists msg, @rethrow A generic e = Rejected (JsError msg)
              /\ (msg = configMessage \/ msg = generic).
Proof.
  unfold rethrow. destruct (isConfigFailure e).
  - exists configMessage. split; [reflexivity | now left].
  - exists generic. split; [reflexivity | now right].
Qed.

(** The shape shared by the three wrappers: the key test, then a [try]
    whose failures are rethrown. *)
Lemma guarded_rejections {A : Type} (k generic : string)
    (sent : list Request) (tried : Settled A) e :
  generic <> missingKey ->
  snd (if negb (truthy (Some k)) then ([], Rejected (JsError missingKey))
       else match tried with
            | Rejected e => (sent, rethrow generic e)
            | Fulfilled a => (sent, Fulfilled a)
            end) = Rejected e ->
  exists msg, e = JsError msg /\ wrapperMessage generic msg
              /\ (msg = missingKey <-> k = "").
Proof.
  intros G. unfold wrapperMessage.
  destruct (truthy (Some k)) eqn:K; cbn [negb snd].
  - apply truthy_Some in K.
    destruct tried as [e'|a]; cbn [snd]; [|discriminate].
    destruct (rethrow_message (A := A) generic e') as (msg & -> & M).
    intro E. injection E as <-. exists msg. split; [reflexivity|].
    split; [now right|].
    split; [|contradiction].
    intros ->. destruct M as [M|M]; [discriminate M | symmetry in M; contradiction].
  - intro E. injection E as <-. exists missingKey.
    split; [reflexivity|]. split; [now left|].
    split; [|reflexivity]. intros _.
    destruct k; [reflexivity | discriminate K].
Qed.

(** X7. Whatever the service does, a wrapper rejects with an [Error]
    carrying one of three fixed messages only: the missing-key message
    (exactly when the credential is empty), the configuration message, or
    its own generic message. *)
Theorem wrappers_reject_with_fixed_messages r prompt b m k :
  (forall e, snd (generateSourceImage r prompt k) = Rejected e ->
     exists msg, e = JsError msg /\ wrapperMessage sourceGeneric msg
                 /\ (msg = missingKey <-> k = ""))
  /\ (forall e, snd (generatePanorama r b m prompt k) = Rejected e ->
        exists msg, e = JsError msg /\ wrapperMessage panoramaGeneric msg
                    /\ (msg = missingKey <-> k = ""))
  /\ (forall e, snd (enhanceImage r b m k) = Rejected e ->
        exists msg, e = JsError msg /\ wrapperMessage enhanceGeneric msg
                    /\ (msg = missingKey <-> k = "")).
Proof.
  split; [|split]; intro e.
  - unfold generateSourceImage. apply guarded_rejections. discriminate.
  - unfold generatePanorama. apply guarded_rejections. discriminate.
  - unfold enhanceImage. apply guarded_rejections. discriminate.
Qed.

Lemma wrappers_reject_with_fixed_messages_failing :
  exists msg,
    JsError sourceGeneric = JsError msg
    /\ wrapperMessage sourceGeneric msg
    /\ (msg = missingKey <-> "key" = "").
Proof.
  exact (proj1 (wrappers_reject_with_fixed_messages Samples.failing
                  "robot" "AAAA" "image/png" "key") _ eq_refl).
Defined.

(** X8. [generateSourceImage] is fulfilled exactly when the credential is
    present and the first generated image of the answer has non-empty
    bytes, which are then the result; it never yields the empty text. *)
Theorem generateSourceImage_fulfilled r prompt k bytes :
  snd (generateSourceImage r prompt k) = Fulfilled bytes
  <-> k <> ""
      /\ bytes <> ""
      /\ exists response first rest,
           generateImages r imagenModel prompt k = Fulfilled response
           /\ generatedImages response = Some (first :: rest)
           /\ image first = Some (Some bytes).
Proof.
  unfold generateSourceImage.
  destruct (truthy (Some k)) eqn:K; cbn [negb].
  - apply truthy_Some in K.
    assert (No : forall e : Thrown,
               @rethrow string sourceGeneric e = Fulfilled bytes -> False).
    { intros e E. now apply rethrow_rejected in E. }
    destruct (generateImages r imagenModel prompt k) as [e|response] eqn:R.
    + cbn [snd]. split; [intro E; now apply No in E|].
      intros (_ & _ & response & first & rest & E & _). discriminate.
    + destruct (generatedImages response) as [[|first rest]|] eqn:G;
        [| destruct (image first) as [[b|]|] eqn:I;
           [destruct (truthy (Some b)) eqn:T|..] |];
        cbn [truthy negb snd show].
      * split; [intro E; now apply No in E|].
        intros (_ & _ & r' & f' & t' & E & G' & _). congruence.
      * apply truthy_Some in T. split.
        -- intro E. injection E as <-. repeat split; try assumption.
           now exists response, first, rest.
        -- intros (_ & _ & r' & f' & t' & E & G' & I'). congruence.
      * split; [intro E; now apply No in E|].
        intros (_ & Nb & r' & f' & t' & E & G' & I').
        apply truthy_Some in Nb. congruence.
      * split; [intro E; now apply No in E|].
        intros (_ & _ & r' & f' & t' & E & G' & I'). congruence.
      * split; [intro E; now apply No in E|].
        intros (_ & _ & r' & f' & t' & E & G' & I'). congruence.
      * split; [intro E; now apply No in E|].
        intros (_ & _ & r' & f' & t' & E & G' & _). congruence.
  - cbn [snd]. split; [discriminate|].
    intros (Nk & _). apply truthy_Some in Nk. congruence.
Qed.

End ServiceFacts.

(* ------------------------------------------------------------------ *)
(** ** The session: what is sent, what is kept, what is stored *)

Section EnhanceRoundTrip.
Import Js Service Controller Spec Facts.
Local Open Scope string_scope.

Lemma lacks_app c a b :
  lacks c (a ++ b) = (lacks c a && lacks c b)%bool.
Proof.
  induction a as [|x r IH]; cbn [lacks append]; [reflexivity|].
  rewrite IH. now rewrite andb_assoc.
Qed.

Lemma line_terminator_before_semicolon x rest :
  x <> "" ->
  starts_with_line_terminator (x ++ String ";" rest)
  = starts_with_line_terminator x.
Proof.
  destruct x as [|c [|c2 [|c3 r]]]; [contradiction|..]; intros _;
    cbn [append starts_with_line_terminator];
    destruct (Ascii.eqb c "010" || Ascii.eqb c "013")%bool;
    try reflexivity.
  - destruct rest; [reflexivity|].
    change (Ascii.eqb ";" "128") with false.
    now rewrite andb_false_r.
  - change (Ascii.eqb ";" "168") with false.
    change (Ascii.eqb ";" "169") with false.
    now rewrite andb_false_r.
Qed.

Lemma lazy_until_semicolon_app m rest :
  lacks ";" m = true -> lineFree m = true ->
  lazy_until_semicolon (m ++ String ";" rest) = Some m.
Proof.
  induction m as [|c r IH]; intros L F.
  - cbn. reflexivity.
  - cbn [lacks] in L. apply andb_true_iff in L as [N L].
    cbn [lineFree] in F. apply andb_true_iff in F as [T F].
    apply negb_true_iff in N, T.
    change (String c r ++ String ";" rest)
      with (String c (r ++ String ";" rest)).
    cbn [lazy_until_semicolon]. rewrite N.
    change (String c (r ++ String ";" rest))
      with (String c r ++ String ";" rest).
    rewrite line_terminator_before_semicolon by discriminate.
    rewrite T, (IH L F). reflexivity.
Qed.

(** The header of a data URL gives its format tag back. *)
Lemma header_mime m :
  lacks ";" m = true -> lineFree m = true ->
  match_colon_semicolon ("data:" ++ m ++ ";base64") = Some m.
Proof.
  intros L F. cbn [append match_colon_semicolon].
  change (Ascii.eqb "d" ":") with false.
  change (Ascii.eqb "a" ":") with false.
  change (Ascii.eqb "t" ":") with false.
  change (Ascii.eqb ":" ":") with true. cbv iota.
  now rewrite (lazy_until_semicolon_app m "base64" L F).
Qed.

Lemma append_assoc (a b c : string) : (a ++ b) ++ c = a ++ b ++ c.
Proof.
  induction a as [|x r IH]; cbn [append]; [reflexivity | now rewrite IH].
Qed.

(** A data URL splits at its comma into header and payload. *)
Lemma data_url_split m payload :
  lacks "," m = true -> lacks "," payload = true ->
  split "," ("data:" ++ m ++ ";base64," ++ payload)
  = ["data:" ++ m ++ ";base64"; payload].
Proof.
  intros Lm Lp. apply split_two. split; [|split; [|exact Lp]].
  - change (";base64," ++ payload) with (";base64" ++ String "," payload).
    now rewrite <- (append_assoc m), <- (append_assoc "data:").
  - rewrite !lacks_app, Lm. reflexivity.
Qed.

Lemma enhanceImage_sent r b m k :
  k <> "" ->
  fst (enhanceImage r b m k) = [GenerateContent geminiModel b m enhancePrompt k].
Proof.
  intro K. apply truthy_Some in K. unfold enhanceImage. rewrite K.
  cbn [negb]. destruct (generateContent r _ _ _ _ _) as [e|response].
  - reflexivity.
  - destruct (extract _ response); reflexivity.
Qed.

(** X9. Enhancing sends back what is displayed: for a displayed data URL
    with format tag [m] and payload [p] (no comma in either, no semicolon
    or line break in the tag), [handleEnhance] sends exactly one request,
    carrying [p] as data, [m] as format tag (image/png when [m] is
    empty), the fixed enhancement prompt and the credential. *)
Theorem enhance_sends_displayed_image w s m p :
  generatedImage s = Some ("data:" ++ m ++ ";base64," ++ p) ->
  apiKey s <> "" ->
  lacks "," m = true -> lacks ";" m = true -> lineFree m = true ->
  lacks "," p = true ->
  network (handleEnhance w s)
  = (network s
     ++ [GenerateContent geminiModel p (if m =? "" then "image/png" else m)
           enhancePrompt (apiKey s)])%list.
Proof.
  intros Shown Key Lc Ls Lf Lp.
  assert (T : truthy (generatedImage s) = true) by (now rewrite Shown).
  apply truthy_Some in Key as Key'.
  unfold handleEnhance. rewrite T, Key'. cbn [negb].
  rewrite Shown. cbn [narrow].
  rewrite (data_url_split m p Lc Lp), (header_mime m Ls Lf).
  cbn [truthy narrow].
  set (tag := if negb (m =? "") then m else "image/png").
  replace (if m =? "" then "image/png" else m) with tag
    by (unfold tag; now destruct (m =? "")).
  pose proof (enhanceImage_sent (remote w) p tag (apiKey s) Key) as Sent.
  destruct (enhanceImage (remote w) p tag (apiKey s)) as [sent settled].
  cbn [fst] in Sent. subst sent.
  destruct settled as [err|result]; [reflexivity|].
  destruct (history s) as [|latest older]; [reflexivity|].
  destruct (truthy (imageUrl result)); [|reflexivity].
  unfold updateHistory. destruct (storageSetItem w _); reflexivity.
Qed.

Lemma enhance_sends_displayed_image_ready :
  network (handleEnhance (Samples.worldWith Samples.answering) Samples.ready)
  = [GenerateContent geminiModel "TkVX" "image/png" enhancePrompt "key"].
Proof.
  assert (K : apiKey Samples.ready <> "") by discriminate.
  exact (enhance_sends_displayed_image
           (Samples.worldWith Samples.answering) Samples.ready
           "image/png" "TkVX" eq_refl K eq_refl eq_refl eq_refl eq_refl).
Defined.

End EnhanceRoundTrip.

Section SessionFacts.
Import Js Service Controller Session Spec Facts.
Local Open Scope string_scope.

(** The control-flow paths of the handlers. *)
Ltac upload_paths w file :=
  unfold handleImageUpload;
  destruct (Compositor.createImageTemplate (browser w) file)
    as [?err|?template] eqn:?.

(** The write of [updateHistory]: it throws, or it goes through. *)
Ltac write_paths w :=
  unfold updateHistory;
  match goal with
  | |- context [storageSetItem w ?v] =>
      destruct (storageSetItem w v) as [?thrown|] eqn:?
  end.

Ltac generate_paths w s :=
  unfold handleGenerate;
  match goal with
  | |- context [if ?g then setError _ s else _] => destruct g eqn:?
  end;
  [ | destruct (generatePanorama (remote w) (narrow (base64Image s))
                  (narrow (Controller.mimeType s)) (prompt s) (apiKey s))
        as [?sent [?err|?result]] eqn:?;
      [ | match goal with
          | |- context [truthy (imageUrl ?r)] =>
              destruct (truthy (imageUrl r)) eqn:?
          end;
          [ write_paths w | ] ] ].

Ltac enhance_paths w s :=
  unfold handleEnhance;
  destruct (truthy (generatedImage s)) eqn:?; cbn [negb];
  [ destruct (truthy (Some (apiKey s))) eqn:?; cbn [negb];
    [ destruct (split "," (narrow (generatedImage s)))
        as [|?header [|?base64Data [|?extra ?rest]]] eqn:?;
      [ | | match goal with
            | |- context [enhanceImage ?r ?d ?m ?k] =>
                destruct (enhanceImage r d m k)
                  as [?sent [?err|?result]] eqn:?
            end;
            [ | destruct (history s) as [|?latest ?older] eqn:?;
                [ | match goal with
                    | |- context [truthy (imageUrl ?r)] =>
                        destruct (truthy (imageUrl r)) eqn:?
                    end;
                    [ write_paths w | ] ] ]
        | ]
    | ]
  | ].

Ltac initial_paths w s :=
  unfold handleGenerateInitial;
  destruct (truthy (Some (initialPrompt s))) eqn:?; cbn [negb];
  [ destruct (truthy (Some (apiKey s))) eqn:?; cbn [negb];
    [ destruct (generateSourceImage (remote w) (initialPrompt s) (apiKey s))
        as [?sent [?err|?bytes]] eqn:?;
      [ | match goal with
          | |- context [fetchBlob w ?u] =>
              destruct (fetchBlob w u) as [?err|?blob] eqn:?
          end;
          [ | match goal with
              | |- context [handleImageUpload w ?f _] => upload_paths w f
              end ] ]
    | ]
  | ].

Ltac action_paths w a s :=
  destruct a as [file| | | |item|target|confirmed|v|v|v|m]; cbn [run];
  [ upload_paths w file
  | initial_paths w s
  | generate_paths w s
  | enhance_paths w s
  | unfold handleReuseItem
  | unfold handleDeleteItem; write_paths w
  | unfold handleClear, handleClearHistory; destruct confirmed;
    [ write_paths w | ]
  | | | | ].

(** X10. The store follows the history that is displayed.  After a page
    load over any store, readable or not, a reload would bring back the
    history displayed.  An action keeps this so unless the store refuses
    the write of the new history: the store then keeps its old text while
    the new history is displayed.  As long as the two agree, loading the
    page again brings the displayed history back. *)
Theorem history_is_persisted :
  (forall store, synced (boot store))
  /\ (forall w a s,
        synced s ->
        synced (run w a s)
        \/ (storageSetItem w (history (run w a s)) <> None
            /\ localStorage (run w a s) = localStorage s))
  /\ (forall s, synced s -> history (boot (localStorage s)) = history s).
Proof.
  unfold synced, persisted. split; [|split].
  - intros [| |entries]; reflexivity.
  - intros w a s S. action_paths w a s; cbn;
      first [ left; first [exact S | reflexivity | congruence]
            | right; split; [congruence | reflexivity] ].
  - intros s S. unfold boot, loadHistory. cbn.
    destruct (localStorage s) as [| |entries]; cbn; cbn in S; exact S.
Qed.

Lemma history_is_persisted_after_generate :
  history (boot (localStorage
                   (run (Samples.worldWith Samples.answering) Generate
                      Samples.ready)))
  = history (run (Samples.worldWith Samples.answering) Generate
               Samples.ready).
Proof.
  destruct history_is_persisted as (_ & Keep & Back).
  apply Back.
  destruct (Keep (Samples.worldWith Samples.answering) Generate
              Samples.ready eq_refl) as [Synced|(Refused & _)].
  - exact Synced.
  - now contradiction Refused.
Defined.

(** X11. No action leaves a pending flag behind: from a state where
    nothing is loading, enhancing or generating, every action ends in such
    a state, whichever way its remote call or its decoding goes. *)
Theorem actions_end_idle w a s : idle s -> idle (run w a s).
Proof.
  unfold idle. intros (L & E & G).
  action_paths w a s; cbn; repeat split; first [assumption | reflexivity].
Qed.

Lemma actions_end_idle_failing :
  idle (run (Samples.worldWith Samples.failing) Enhance Samples.ready).
Proof.
  apply actions_end_idle. repeat split.
Defined.

(** What a wrapper sends: nothing, or one request carrying the given,
    non-empty credential. *)
Lemma guarded_sent {A : Type} (k : string) (req : Request)
    (tried : Settled A) (generic : string) sent outcome :
  keyOf req = k ->
  (if negb (truthy (Some k)) then ([], Rejected (JsError missingKey))
   else match tried with
        | Rejected e => ([req], rethrow generic e)
        | Fulfilled a => ([req], Fulfilled a)
        end) = (sent, outcome) ->
  (List.length sent <= 1)%nat
  /\ Forall (fun r => keyOf r = k /\ k <> "") sent.
Proof.
  intros Kr. destruct (truthy (Some k)) eqn:K; cbn [negb].
  - apply truthy_Some in K.
    destruct tried; intro E; injection E as <- _; cbn;
      (split; [lia|]); repeat constructor; assumption.
  - intro E. injection E as <- _. cbn. split; [lia | constructor].
Qed.

Lemma generateSourceImage_sends r prompt k sent o :
  generateSourceImage r prompt k = (sent, o) ->
  (List.length sent <= 1)%nat
  /\ Forall (fun q => keyOf q = k /\ k <> "") sent.
Proof.
  unfold generateSourceImage. intro E.
  eapply guarded_sent; [|exact E]. reflexivity.
Qed.

Lemma generatePanorama_sends r b m prompt k sent o :
  generatePanorama r b m prompt k = (sent, o) ->
  (List.length sent <= 1)%nat
  /\ Forall (fun q => keyOf q = k /\ k <> "") sent.
Proof.
  unfold generatePanorama. intro E.
  eapply guarded_sent; [|exact E]. reflexivity.
Qed.

Lemma enhanceImage_sends r b m k sent o :
  enhanceImage r b m k = (sent, o) ->
  (List.length sent <= 1)%nat
  /\ Forall (fun q => keyOf q = k /\ k <> "") sent.
Proof.
  unfold enhanceImage. intro E.
  eapply guarded_sent; [|exact E]. reflexivity.
Qed.

(** X12. An action sends at most one request, always with the credential
    of the session, which is then not empty; uploading, reusing,
    deleting, clearing and typing send nothing. *)
Theorem actions_send_at_most_one_request w a s :
  exists sent,
    network (run w a s) = (network s ++ sent)%list
    /\ (List.length sent <= 1)%nat
    /\ Forall (fun q => keyOf q = apiKey s /\ apiKey s <> "") sent
    /\ match a with
       | GenerateInitial | Generate | Enhance => True
       | _ => sent = []
       end.
Proof.
  assert (Nothing : forall n : list Request, n = (n ++ [])%list)
    by (intro n; now rewrite app_nil_r).
  action_paths w a s; cbn;
    try (exists []; repeat split;
         first [apply Nothing | cbn; lia | constructor]);
    match goal with
    | H : generateSourceImage _ _ _ = (?sent, _) |- _ =>
        exists sent; destruct (generateSourceImage_sends _ _ _ _ _ H)
    | H : generatePanorama _ _ _ _ _ = (?sent, _) |- _ =>
        exists sent; destruct (generatePanorama_sends _ _ _ _ _ _ _ H)
    | H : enhanceImage _ _ _ _ = (?sent, _) |- _ =>
        exists sent; destruct (enhanceImage_sends _ _ _ _ _ _ H)
    end;
    now repeat split.
Qed.

Lemma createImageTemplate_png b file r :
  Compositor.createImageTemplate b file = Fulfilled r ->
  Compositor.mimeType r = "image/png".
Proof.
  unfold Compositor.createImageTemplate.
  destruct (Compositor.decode b file) as [[w h]|]; [|discriminate].
  destruct (negb (Compositor.getContext2d b)); [discriminate|].
  destruct (split "," _) as [|header [|payload [|extra rest]]];
    try discriminate.
  intro E. now injection E as <-.
Qed.

Lemma guard_passed s :
  (negb (truthy (base64Image s)) || negb (truthy (Controller.mimeType s))
   || negb (truthy (Some (prompt s))) || negb (truthy (Some (apiKey s))))%bool
  = false ->
  truthy (base64Image s) = true /\ truthy (Controller.mimeType s) = true
  /\ truthy (Some (prompt s)) = true /\ truthy (Some (apiKey s)) = true.
Proof.
  destruct (truthy (base64Image s)), (truthy (Controller.mimeType s)),
    (truthy (Some (prompt s))), (truthy (Some (apiKey s)));
    cbn; intro; repeat split; congruence.
Qed.

Lemma truthy_narrow_nonempty o : truthy o = true -> narrow o <> "".
Proof.
  destruct o as [v|]; [|discriminate]. cbn [narrow]. apply truthy_Some.
Qed.

(** X13. The template always has a format tag when it has a payload, in
    the session and in every history entry: this holds initially and
    every offered action keeps it.  Hence, whenever the generate button is
    enabled, the guard of [handleGenerate] lets the action through. *)
Theorem enabled_generate_passes_guard :
  templatesTagged initialState
  /\ (forall w a s,
        templatesTagged s -> offered a s -> templatesTagged (run w a s))
  /\ (forall s,
        templatesTagged s -> isGenerateDisabled s = false ->
        canGenerate s = true).
Proof.
  unfold templatesTagged. split; [|split].
  - split; [discriminate | constructor].
  - intros w a s [T H] O.
    assert (Png : forall file r,
               Compositor.createImageTemplate (browser w) file = Fulfilled r ->
               truthy (Some (Compositor.mimeType r)) = true).
    { intros file r E. now rewrite (createImageTemplate_png _ _ _ E). }
    action_paths w a s; cbn; cbn in O;
      try (split;
           [ first [exact T | discriminate | intros _; eapply Png; eassumption]
           | first [ exact H
                   | match goal with
                     | E : history s = _ |- _ => rewrite E; exact H
                     end ] ]).
    (* a new entry, whether the store takes it or not *)
    1, 2: split; [exact T|]; constructor; [|exact H];
      unfold entryTagged;
      cbn [templateImageBase64 templateImageMimeType]; intros _;
      apply truthy_narrow_nonempty;
      match goal with
      | G : _ = false |- _ =>
          apply guard_passed in G; destruct G as (_ & M & _); exact M
      end.
    (* the newest entry, enhanced *)
    1, 2: split; [exact T|];
      inversion H as [|x l Hx Hl]; subst; constructor; assumption.
    (* reuse *)
    1: split; [|exact H];
      rewrite Forall_forall in H; specialize (H item O);
      rewrite !negb_true_iff, !String.eqb_neq; exact H.
    (* delete *)
    1, 2: split; [exact T|]; rewrite Forall_forall in *;
      intros x In; apply filter_In in In as [In _]; now apply H.
    (* clear *)
    all: split; [exact T | constructor].
  - intros s [T _] D. unfold isGenerateDisabled in D. unfold canGenerate.
    destruct (truthy (base64Image s)); cbn [negb orb] in D; [|discriminate].
    rewrite (T eq_refl).
    destruct (truthy (Some (prompt s))); cbn [negb orb] in D; [|discriminate].
    destruct (isLoading s); cbn [negb orb] in D; [discriminate|].
    destruct (truthy (Some (apiKey s))); [reflexivity | discriminate].
Qed.

Lemma enabled_generate_passes_guard_ready :
  canGenerate
    (run (Samples.worldWith Samples.answering) (Reuse Samples.olderEntry)
       Samples.ready) = true.
Proof.
  destruct enabled_generate_passes_guard as (_ & Keep & Pass).
  apply Pass; [|reflexivity].
  apply Keep.
  - split; [reflexivity|]. repeat constructor; discriminate.
  - right. left. reflexivity.
Defined.

(** X14. Every result, displayed or kept in the history, is a data URL
    with a non-empty payload: this holds initially and every offered
    action keeps it.  Hence the first guard of [handleEnhance] passes
    whenever a result is displayed. *)
Theorem results_are_data_urls :
  resultsAreDataUrls initialState
  /\ (forall w a s,
        resultsAreDataUrls s -> offered a s ->
        resultsAreDataUrls (run w a s))
  /\ (forall s,
        resultsAreDataUrls s -> generatedImage s <> None ->
        truthy (generatedImage s) = true).
Proof.
  unfold resultsAreDataUrls. split; [|split].
  - split; [discriminate | constructor].
  - intros w a s [D H] O.
    action_paths w a s; cbn; cbn in O;
      try match goal with
          | E : generatePanorama _ _ _ _ _ = (_, Fulfilled _) |- _ =>
              apply generatePanorama_fulfilled in E as (u & Eu & Du);
              rewrite Eu; cbn [narrow]
          | E : enhanceImage _ _ _ _ = (_, Fulfilled _) |- _ =>
              apply enhanceImage_fulfilled in E as (u & Eu & Du);
              rewrite Eu; cbn [narrow]
          end;
      try (split;
           [ first [ exact D
                   | intros url E; discriminate E
                   | intros url E; injection E as <-; assumption ]
           | first [ exact H
                   | constructor; [assumption | exact H]
                   | inversion H; subst; constructor; assumption
                   | constructor
                   | match goal with
                     | E : history s = _ |- _ => rewrite E; exact H
                     end ] ]).
    (* reuse *)
    1: split; [|exact H];
      rewrite Forall_forall in H; specialize (H item O);
      intros url E; injection E as <-; exact H.
    (* delete *)
    all: split; [exact D|]; rewrite Forall_forall in *;
      intros x In; apply filter_In in In as [In _]; now apply H.
  - intros s [D _] Shown.
    destruct (generatedImage s) as [url|]; [|contradiction].
    apply isDataUrl_truthy. now apply D.
Qed.

Lemma results_are_data_urls_generated :
  truthy (generatedImage
            (run (Samples.worldWith Samples.answering) Generate
               Samples.ready)) = true.
Proof.
  destruct results_are_data_urls as (_ & Keep & Shown).
  apply Shown; [|discriminate].
  apply Keep; [|exact I].
  split.
  - intros url E. injection E as <-.
    exists "image/png", "TkVX". split; [discriminate | reflexivity].
  - repeat constructor.
    + exists "image/png", "TkVX". split; [discriminate | reflexivity].
    + exists "image/png", "T0xE". split; [discriminate | reflexivity].
Defined.






(** X17. An upload either installs the new template, tagged image/png,
    or reports an error and keeps the old template while the preview
    already shows the new file; a generate action issued then would still
    send the old template. *)
Theorem upload_replaces_or_keeps_template w file s :
  let s' := handleImageUpload w file s in
  imagePreview s' = Some (createObjectURL w file)
  /\ match Compositor.createImageTemplate (browser w) file with
     | Fulfilled template =>
         error s' = None
         /\ base64Image s' = Some (Compositor.base64 template)
         /\ Controller.mimeType s' = Some "image/png"
     | Rejected _ =>
         error s' <> None
         /\ base64Image s' = base64Image s
         /\ Controller.mimeType s' = Controller.mimeType s
         /\ outpaintCall w s' = outpaintCall w s
     end.
Proof.
  cbv zeta. unfold outpaintCall. upload_paths w file; cbn.
  - repeat split. discriminate.
  - rewrite (createImageTemplate_png _ _ _ ltac:(eassumption)).
    repeat split.
Qed.

(** X18. When [handleGenerateInitial] ends without error, the service
    returned image bytes, they were wrapped as the file generated.png of
    type image/png, and that file went through the upload path: its
    template is installed, the tab is back on upload, no result is
    displayed and exactly one request was sent. *)
Theorem generated_source_becomes_template w s :
  error (handleGenerateInitial w s) = None ->
  exists bytes blob template,
    generateSourceImage (remote w) (initialPrompt s) (apiKey s)
    = ([GenerateImages imagenModel (initialPrompt s) (apiKey s)],
       Fulfilled bytes)
    /\ fetchBlob w ("data:image/png;base64," ++ bytes) = Fulfilled blob
    /\ Compositor.createImageTemplate (browser w)
         {| Compositor.file_name := "generated.png";
            Compositor.file_type := "image/png";
            Compositor.file_bytes := blob |} = Fulfilled template
    /\ base64Image (handleGenerateInitial w s)
       = Some (Compositor.base64 template)
    /\ Controller.mimeType (handleGenerateInitial w s) = Some "image/png"
    /\ sourceMode (handleGenerateInitial w s) = upload
    /\ generatedImage (handleGenerateInitial w s) = None
    /\ network (handleGenerateInitial w s)
       = (network s
          ++ [GenerateImages imagenModel (initialPrompt s) (apiKey s)])%list.
Proof.
  initial_paths w s; cbn; try discriminate.
  intros _.
  match goal with
  | E : generateSourceImage _ _ _ = (?sent, Fulfilled ?bytes),
    F : fetchBlob w _ = Fulfilled ?blob,
    C : Compositor.createImageTemplate _ _ = Fulfilled ?template |- _ =>
      exists bytes, blob, template;
      assert (S : sent = [GenerateImages imagenModel (initialPrompt s) (apiKey s)])
  end.
  { match goal with
    | E : generateSourceImage _ _ _ = _ |- _ =>
        unfold generateSourceImage in E;
        destruct (negb (truthy (Some (apiKey s)))); [discriminate|];
        destruct (match generateImages (remote w) _ _ _ with
                  | Rejected e => _ | Fulfilled _ => _ end);
        now injection E as <- _
    end. }
  subst.
  rewrite (createImageTemplate_png _ _ _ ltac:(eassumption)).
  repeat split; assumption.
Qed.

Lemma generated_source_becomes_template_answering :
  exists bytes blob template,
    generateSourceImage Samples.answering "robot" "key"
    = ([GenerateImages imagenModel "robot" "key"], Fulfilled bytes)
    /\ Fulfilled ("data:image/png;base64," ++ bytes) = Fulfilled blob
    /\ Compositor.createImageTemplate Samples.pngBrowser
         {| Compositor.file_name := "generated.png";
            Compositor.file_type := "image/png";
            Compositor.file_bytes := blob |} = Fulfilled template
    /\ base64Image (handleGenerateInitial
                      (Samples.worldWith Samples.answering) Samples.ready)
       = Some (Compositor.base64 template)
    /\ Controller.mimeType (handleGenerateInitial
                              (Samples.worldWith Samples.answering)
                              Samples.ready) = Some "image/png"
    /\ sourceMode (handleGenerateInitial
                     (Samples.worldWith Samples.answering) Samples.ready)
       = upload
    /\ generatedImage (handleGenerateInitial
                         (Samples.worldWith Samples.answering) Samples.ready)
       = None
    /\ network (handleGenerateInitial
                  (Samples.worldWith Samples.answering) Samples.ready)
       = [GenerateImages imagenModel "robot" "key"].
Proof.
  exact (generated_source_becomes_template
           (Samples.worldWith Samples.answering) Samples.ready eq_refl).
Defined.

(** X19. On the state they share, the component with history behaves as
    the component without it: uploading leads to the same state, the
    generate button is disabled in the same states, and generating leads
    to the same template, result, error, status, requests and scheduled
    updates as long as the store takes the new history.  When the store
    refuses it, the two part: the component with history reports the error
    of the write and an empty status, the other one success; both display
    the new image. *)
Theorem simple_app_is_simulated w file s :
  ((forall result,
      snd (outpaintCall w s) = Fulfilled result ->
      storageSetItem w (entryOf w s result :: history s) = None) ->
   view (handleGenerate w s) = SimpleApp.handleGenerate w (view s))
  /\ (forall result thrown,
        canGenerate s = true ->
        snd (outpaintCall w s) = Fulfilled result ->
        storageSetItem w (entryOf w s result :: history s) = Some thrown ->
        error (handleGenerate w s)
        = Some (messageOr "Произошла неизвестная ошибка." thrown)
        /\ statusMessage (handleGenerate w s) = ""
        /\ SimpleApp.error (SimpleApp.handleGenerate w (view s)) = None
        /\ SimpleApp.statusMessage (SimpleApp.handleGenerate w (view s))
           = "Панорама успешно создана!"
        /\ SimpleApp.generatedImage (SimpleApp.handleGenerate w (view s))
           = generatedImage (handleGenerate w s))
  /\ view (handleImageUpload w file s)
     = SimpleApp.handleImageUpload w file (view s)
  /\ SimpleApp.isGenerateDisabled (view s) = isGenerateDisabled s.
Proof.
  split; [|split; [|split]].
  - unfold SimpleApp.handleGenerate, outpaintCall, entryOf.
    cbn [view SimpleApp.base64Image SimpleApp.mimeType SimpleApp.prompt
         SimpleApp.apiKey].
    intro Taken. generate_paths w s; try reflexivity.
    specialize (Taken _ eq_refl). congruence.
  - intros result thrown G E W.
    rewrite (handleGenerate_issued w s G). cbn zeta.
    rewrite E, (outpaint_fulfilled_truthy w s result E), W.
    unfold SimpleApp.handleGenerate.
    cbn [view SimpleApp.base64Image SimpleApp.mimeType SimpleApp.prompt
         SimpleApp.apiKey].
    rewrite canGenerate_guard, G. cbn [negb].
    unfold outpaintCall in E.
    destruct (generatePanorama _ _ _ _ _) as [sent settled].
    cbn [snd] in E. subst settled. cbn. now repeat split.
  - unfold SimpleApp.handleImageUpload. upload_paths w file; reflexivity.
  - unfold SimpleApp.isGenerateDisabled, isGenerateDisabled. cbn.
    destruct (base64Image s) as [[|c r]|], (prompt s), (apiKey s),
      (isLoading s); reflexivity.
Qed.

Lemma simple_app_is_simulated_ready :
  view (handleGenerate (Samples.worldWith Samples.answering) Samples.ready)
  = SimpleApp.handleGenerate (Samples.worldWith Samples.answering)
      (view Samples.ready).
Proof.
  apply (proj1 (simple_app_is_simulated
                  (Samples.worldWith Samples.answering) Samples.aFile
                  Samples.ready)).
  intros result _. reflexivity.
Defined.

(** X20. When the displayed result is not of the form header,payload
    with a single comma, [handleEnhance] sends nothing, reports the
    malformed data URL, keeps the displayed image and the history, and
    ends with the enhancing flag down. *)
Theorem enhance_rejects_malformed_url w s url :
  generatedImage s = Some url -> url <> "" -> apiKey s <> "" ->
  (forall header payload,
     lacks "," header = true -> lacks "," payload = true ->
     url <> header ++ "," ++ payload) ->
  let s' := handleEnhance w s in
  error s' = Some "Неверный формат Data URL изображения"
  /\ network s' = network s
  /\ generatedImage s' = Some url
  /\ history s' = history s
  /\ isEnhancing s' = false.
Proof.
  intros Shown Nonempty Key Malformed. cbv zeta.
  apply truthy_Some in Nonempty, Key.
  unfold handleEnhance. rewrite Shown, Nonempty, Key. cbn [negb narrow].
  destruct (split "," url) as [|header [|payload [|extra rest]]] eqn:S;
    try (cbn; now rewrite Shown).
  apply split_two in S as (E & Lh & Lp).
  now destruct (Malformed header payload Lh Lp).
Qed.

Lemma enhance_rejects_malformed_url_blob :
  error (handleEnhance (Samples.worldWith Samples.answering)
           (setGeneratedImage (Some "blob:preview") Samples.ready))
  = Some "Неверный формат Data URL изображения".
Proof.
  assert (N : "blob:preview" <> "") by discriminate.
  assert (K : apiKey (setGeneratedImage (Some "blob:preview") Samples.ready)
              <> "") by discriminate.
  refine (proj1 (enhance_rejects_malformed_url
                   (Samples.worldWith Samples.answering)
                   (setGeneratedImage (Some "blob:preview") Samples.ready)
                   "blob:preview" eq_refl N K _)).
  intros header payload Lh Lp E.
  assert (S : split "," "blob:preview" = [header; payload])
    by (apply split_two; now repeat split).
  discriminate S.
Defined.

(** X21. Past its guard, [handleGenerate] sends exactly one request,
    whatever the outcome: the template payload and format tag of the
    session, the fixed instruction followed by the prompt, and the
    credential; it schedules the two status updates at 1.5 s and 4 s. *)
Theorem generate_sends_template_and_prompt w s :
  canGenerate s = true ->
  network (handleGenerate w s)
  = (network s
     ++ [GenerateContent geminiModel (narrow (base64Image s))
           (narrow (Controller.mimeType s)) (systemPrompt ++ prompt s)
           (apiKey s)])%list
  /\ timers (handleGenerate w s)
     = (timers s
        ++ [(1500, "Анализ изображения и подсказки...")]
        ++ [(4000, "Расширение сцены до 16:9...")])%list.
Proof.
  intro G. rewrite (handleGenerate_issued w s G). cbn zeta.
  assert (Sent : fst (outpaintCall w s)
                 = [GenerateContent geminiModel (narrow (base64Image s))
                      (narrow (Controller.mimeType s))
                      (systemPrompt ++ prompt s) (apiKey s)]).
  { unfold canGenerate in G. apply andb_true_iff in G as [_ K].
    unfold outpaintCall, generatePanorama. rewrite K. cbn [negb].
    destruct (generateContent (remote w) _ _ _ _ _) as [e|response];
      [reflexivity|].
    destruct (extract _ response); reflexivity. }
  destruct (outpaintCall w s) as [sent settled]. cbn [fst snd] in *.
  subst sent.
  destruct settled as [err|result]; cbn.
  - now rewrite <- app_assoc.
  - destruct (truthy (imageUrl result)); [destruct (storageSetItem w _)|];
      cbn; now rewrite <- app_assoc.
Qed.

Lemma generate_sends_template_and_prompt_ready :
  network (handleGenerate (Samples.worldWith Samples.failing) Samples.ready)
  = [GenerateContent geminiModel "AAAA" "image/png"
       (systemPrompt ++ "forest") "key"].
Proof.
  exact (proj1 (generate_sends_template_and_prompt
                  (Samples.worldWith Samples.failing) Samples.ready
                  eq_refl)).
Defined.

(** X22. Over a store that refuses every write, no action changes the
    stored text, so a reload brings back the history from before the
    action.  A generate action then always ends in an error, also when its
    image is displayed and recorded, and so does an enhance action over a
    non-empty history; deleting and clearing change the history and
    report nothing. *)
Theorem refused_writes_keep_store w s :
  (forall v, storageSetItem w v <> None) ->
  (forall a, localStorage (run w a s) = localStorage s)
  /\ (synced s ->
      forall a, history (boot (localStorage (run w a s))) = history s)
  /\ endedInError (handleGenerate w s)
  /\ (history s <> [] -> endedInError (handleEnhance w s))
  /\ (forall target, error (handleDeleteItem w target s) = error s)
  /\ history (handleClear w true s) = []
  /\ error (handleClear w true s) = error s.
Proof.
  intro Full.
  assert (Refused : forall v, storageSetItem w v = None -> False)
    by (intros v W; exact (Full v W)).
  assert (Store : forall a, localStorage (run w a s) = localStorage s).
  { intro a. action_paths w a s; cbn;
      first [reflexivity | exfalso; eapply Refused; eassumption]. }
  assert (Image : forall r b m p k sent result,
             generatePanorama r b m p k = (sent, Fulfilled result) ->
             truthy (imageUrl result) = false -> False).
  { intros r b m p k sent result E F.
    apply generatePanorama_fulfilled in E as (url & E & D).
    rewrite E, (isDataUrl_truthy url D) in F. discriminate. }
  assert (Enhanced : forall r b m k sent result,
             enhanceImage r b m k = (sent, Fulfilled result) ->
             truthy (imageUrl result) = false -> False).
  { intros r b m k sent result E F.
    apply enhanceImage_fulfilled in E as (url & E & D).
    rewrite E, (isDataUrl_truthy url D) in F. discriminate. }
  unfold endedInError. split; [exact Store|]. split; [|split; [|split]].
  - intros S a. rewrite Store.
    unfold boot, loadHistory. cbn. unfold synced, persisted in S.
    destruct (localStorage s) as [| |entries]; cbn; exact S.
  - generate_paths w s; cbn;
      first [ discriminate
            | exfalso; eapply Refused; eassumption
            | exfalso; eapply Image; eassumption ].
  - intro Past. enhance_paths w s; cbn;
      first [ discriminate
            | now contradiction Past
            | exfalso; eapply Refused; eassumption
            | exfalso; eapply Enhanced; eassumption ].
  - split; [|split].
    + intro target. unfold handleDeleteItem, updateHistory.
      destruct (storageSetItem w _); reflexivity.
    + unfold handleClear, handleClearHistory, updateHistory.
      destruct (storageSetItem w _); reflexivity.
    + unfold handleClear, handleClearHistory, updateHistory.
      destruct (storageSetItem w _); reflexivity.
Qed.

Lemma refused_writes_keep_store_full :
  history (boot (localStorage
                   (run (Samples.fullStore Samples.answering) Generate
                      Samples.ready)))
  = [Samples.newestEntry; Samples.olderEntry]
  /\ endedInError (handleGenerate (Samples.fullStore Samples.answering)
                     Samples.ready).
Proof.
  assert (Full : forall v,
             storageSetItem (Samples.fullStore Samples.answering) v <> None)
    by (intro v; discriminate).
  destruct (refused_writes_keep_store
              (Samples.fullStore Samples.answering) Samples.ready Full)
    as (_ & Reload & Reported & _).
  split; [exact (Reload eq_refl Generate) | exact Reported].
Defined.

End SessionFacts.
